(** * Oscar storefront: shipping charges, shipping-event ledger,
      checkout address resolution and bulk-edit dispatch

    A shallow embedding of the business methods of the repository:

    - [Shipping]  : [oscar/shipping/abstract_models.py], [AbstractMethod];
    - [Ledger]    : the shipping-event ledger exercised by
                    [oscar/apps/order/tests.py];
    - [Checkout]  : [oscar/apps/checkout/mixins.py], [OrderPlacementMixin],
                    the shipping address and the address book;
    - [BulkEdit]  : [oscar/views/generic.py], [BulkEditMixin];
    - [PostAction], [PhoneNumberForm] : the other two mixins of
                    [oscar/views/generic.py];
    - [Payment], [OrderPlacement], [Confirmation] : the payment details,
                    [place_order] and the confirmation message of
                    [oscar/apps/checkout/mixins.py].

    Python exceptions are values of [exception]; a call that can raise
    returns a [result]. The event ledger is a list of rows in recording
    order; database tables are finite maps keyed by primary key, and
    dictionaries are finite maps. *)

From Stdlib Require Import ZArith Lia Ascii.
From stdpp Require Import base option list strings gmap pretty.

Local Open Scope Z_scope.

(** ** Exceptions and results *)

(** The exception classes raised by the modelled code. [InvalidEventQuantity]
    is the name the specification gives to a rejected event quantity. *)
Inductive exception : Type :=
  | AttributeError (msg : string)
  | ValueError (msg : string)
  | KeyError (key : Z)
  | DoesNotExist
  | MultipleObjectsReturned
  | UnableToPlaceOrder (msg : string)
  | InvalidEventQuantity.

Definition class_name (e : exception) : string :=
  match e with
  | AttributeError _ => "AttributeError"
  | ValueError _ => "ValueError"
  | KeyError _ => "KeyError"
  | DoesNotExist => "DoesNotExist"
  | MultipleObjectsReturned => "MultipleObjectsReturned"
  | UnableToPlaceOrder _ => "UnableToPlaceOrder"
  | InvalidEventQuantity => "InvalidEventQuantity"
  end.

Inductive result (A : Type) : Type :=
  | Ok (a : A)
  | Raise (e : exception).
Arguments Ok {A} a.
Arguments Raise {A} e.

(** [result] is an error monad; sequencing uses stdpp's [x ← r; k]. *)
#[global] Instance result_ret : MRet result := λ A a, Ok a.
#[global] Instance result_bind : MBind result := λ A B k r,
  match r with
  | Ok a => k a
  | Raise e => Raise e
  end.

Definition raises {A : Type} (r : result A) (cls : string) : Prop :=
  ∃ e, r = Raise e ∧ class_name e = cls.

(** ** Shipping charge: [oscar/shipping/abstract_models.py] *)

Module Shipping.

(** A [DecimalField(decimal_places=2)] amount, counted in hundredths:
    [Decimal('5.00')] is [500]. Sums and integer multiples of such
    amounts are exact in Python's [Decimal] as long as they stay within
    the 28 significant digits of the default context. *)
Definition Decimal : Type := Z.

Record BasketLine : Type := { quantity : Z }.

(** [basket.lines.all()] *)
Record Basket : Type := { lines : list BasketLine }.

Record AbstractMethod : Type := {
  code : string;
  name : string;
  description : string;
  price_currency : string;
  price_per_order : Decimal;
  price_per_item : Decimal;
  _basket : option Basket   (* the attribute exists once [set_basket] ran *)
}.

Definition set_basket (self : AbstractMethod) (basket : Basket)
  : AbstractMethod :=
  {| code := code self; name := name self;
     description := description self;
     price_currency := price_currency self;
     price_per_order := price_per_order self;
     price_per_item := price_per_item self;
     _basket := Some basket |}.

(** [for line in ...: charge += line.quantity * self.price_per_item] *)
Definition charge_loop (price_per_item : Decimal) (charge : Decimal)
    (ls : list BasketLine) : Decimal :=
  fold_left (fun charge line => charge + quantity line * price_per_item)
            ls charge.

Definition basket_charge_incl_tax (self : AbstractMethod) : result Decimal :=
  match _basket self with
  | None => Raise (AttributeError "_basket")
  | Some basket =>
      Ok (charge_loop (price_per_item self) (price_per_order self)
                      (lines basket))
  end.

Definition basket_charge_excl_tax (self : AbstractMethod) : result Decimal :=
  basket_charge_incl_tax self.

(** The specification's sum, Σ(line.quantity × price_per_item), and the
    number of items in a basket. *)
Definition items_charge (price_per_item : Decimal) (ls : list BasketLine)
  : Decimal :=
  foldr Z.add 0 ((fun line => quantity line * price_per_item) <$> ls).

Definition total_quantity (ls : list BasketLine) : Z :=
  foldr Z.add 0 (quantity <$> ls).

(** [save]: a method saved without a code takes the slug of its name as
    code. [slugify] is Django's template filter and is taken as a
    parameter; writing the row is left to the model layer. *)
Definition save (slugify : string → string) (self : AbstractMethod)
  : AbstractMethod :=
  {| code := if bool_decide (code self = "") then slugify (name self)
             else code self;
     name := name self;
     description := description self;
     price_currency := price_currency self;
     price_per_order := price_per_order self;
     price_per_item := price_per_item self;
     _basket := _basket self |}.

End Shipping.

(** ** Shipping-event ledger: the models behind [oscar/apps/order/tests.py] *)

Module Ledger.

(** Modelled from the spec: the order models ([Line], [ShippingEventType],
    [ShippingEvent], [ShippingEventQuantity]) are imported by
    [oscar/apps/order/tests.py] from [oscar.apps.order.models], whose code
    lies outside the files modelled here. The records follow section 3 of the
    specification, the operations its section 4.4, and both are kept in
    line with what the tests observe. *)
Record ShippingEventType : Type := { code : string; name : string }.

(** Modelled from the spec: an order line, with the quantity ordered
    ([Line.quantity] in the tests). *)
Record Line : Type := { line_id : Z; quantity : Z }.

(** Modelled from the spec: a shipping event of an order, with its type;
    the timestamp plays no part in what follows. *)
Record ShippingEvent : Type := {
  order_number : string;
  event_type : ShippingEventType
}.

(** Modelled from the spec: the join record binding an event to a line
    with a quantity. *)
Record ShippingEventQuantity : Type := {
  event : ShippingEvent;
  line : Line;
  event_quantity : Z
}.

(** Modelled from the spec: an order with its sequence of lines. *)
Record Order : Type := { number : string; lines : list Line }.

#[global] Instance ShippingEventType_eq_dec : EqDecision ShippingEventType.
Proof. solve_decision. Defined.
#[global] Instance Line_eq_dec : EqDecision Line.
Proof. solve_decision. Defined.

(** The ledger is append-only: the rows in the order they were recorded. *)
Abbreviation ledger := (list ShippingEventQuantity).

(** Does a row concern this line at this progress stage (event type)? *)
Definition matches (l : Line) (t : ShippingEventType)
    (r : ShippingEventQuantity) : bool :=
  bool_decide (line r = l) && bool_decide (event_type (event r) = t).

(** Modelled from the spec: the line's cumulative recorded quantity for a
    progress stage, [sum(event_quantity.quantity for matching stage)]. *)
Definition cumulative (led : ledger) (l : Line) (t : ShippingEventType) : Z :=
  foldr Z.add 0 (event_quantity <$> filter (λ r, matches l t r = true) led).

(** Modelled from the spec: recording a quantity of an event against one
    line (in the tests, [ShippingEventQuantity.objects.create]). An omitted
    quantity defaults to the line's full remaining quantity; a quantity that
    makes the cumulative quantity of the stage exceed the line's quantity is
    rejected with [InvalidEventQuantity]; otherwise the row is appended.
    This is the contract of section 4.4 of the specification, whose only
    check is the cumulative bound; the comparison with the quantities of
    earlier events that section 3 mentions is not part of it. *)
Definition record (led : ledger) (ev : ShippingEvent) (l : Line)
    (q : option Z) : result (ShippingEventQuantity * ledger) :=
  let done := cumulative led l (event_type ev) in
  let q' := match q with
            | Some q => q
            | None => quantity l - done
            end in
  if bool_decide (quantity l < done + q')
  then Raise InvalidEventQuantity
  else
    let row := {| event := ev; line := l; event_quantity := q' |} in
    Ok (row, led ++ [row]).

(** Modelled from the spec: [record_event(order, event_type, quantities)],
    one event with a quantity (possibly omitted) for each of the lines it
    concerns; any rejected line rejects the whole event. *)
Fixpoint record_quantities (led : ledger) (ev : ShippingEvent)
    (quantities : list (Line * option Z)) : result ledger :=
  match quantities with
  | [] => Ok led
  | (l, q) :: rest =>
      r ← record led ev l q;
      record_quantities r.2 ev rest
  end.

Definition record_event (led : ledger) (o : Order) (t : ShippingEventType)
    (quantities : list (Line * option Z)) : result ledger :=
  record_quantities led {| order_number := number o; event_type := t |}
                    quantities.

(** The ledgers that can arise: the empty one, extended by successful
    recordings only. *)
Inductive reachable : ledger → Prop :=
  | reachable_nil : reachable []
  | reachable_record led o t quantities led' :
      reachable led →
      record_event led o t quantities = Ok led' →
      reachable led'.

(** The bound the ledger maintains. *)
Definition within_bounds led : Prop :=
  ∀ l t, 0 ≤ quantity l → cumulative led l t ≤ quantity l.

(** Modelled from the spec: the stage a line has reached, the type of the
    latest event recorded against it
    ([test_shipping_status_after_two_full_line_events] expects the status of
    the later type). *)
Definition latest_type (led : ledger) (l : Line) : option ShippingEventType :=
  (λ r, event_type (event r))
    <$> last (filter (λ r, line r = l) led).

(** ["%s (%d/%d items)" % (type.name, done, line.quantity)], the format
    [test_shipping_status_after_partial_line_event] expects. *)
Definition partial_status (nm : string) (done total : Z) : string :=
  nm +:+ " (" +:+ pretty done +:+ "/" +:+ pretty total +:+ " items)".

(** Modelled from the spec: [Line.shipping_status], derived from the ledger
    and never stored. Empty before any event; the type's name once the line
    is fully covered at the stage it has reached; the name with the
    (done/total) count while it is only partially covered. *)
Definition shipping_status (led : ledger) (l : Line) : string :=
  match latest_type led l with
  | None => ""
  | Some t =>
      let done := cumulative led l t in
      if bool_decide (done = quantity l) then name t
      else partial_status (name t) done (quantity l)
  end.

(** Modelled from the spec: [Line.has_shipping_event_occurred(type)]. *)
Definition line_has_shipping_event_occurred (led : ledger) (l : Line)
    (t : ShippingEventType) : bool :=
  bool_decide (cumulative led l t = quantity l).

(** Modelled from the spec: [has_shipping_event_occurred(order, type)],
    true when every line reports its full quantity for the type. *)
Definition has_shipping_event_occurred (led : ledger) (o : Order)
    (t : ShippingEventType) : bool :=
  forallb (λ l, line_has_shipping_event_occurred led l t) (lines o).

(** The fixtures of [LineTest.setUp]. *)
Definition order_placed : ShippingEventType :=
  {| code := "order_placed"; name := "Order placed" |}.
Definition dispatched : ShippingEventType :=
  {| code := "dispatched"; name := "Dispatched" |}.
Definition test_line : Line := {| line_id := 1; quantity := 4 |}.
Definition test_order : Order :=
  {| number := "100002"; lines := [test_line] |}.

End Ledger.

(** ** Checkout address resolution: [oscar/apps/checkout/mixins.py] *)

Module Checkout.

(** The keyword arguments of an address model: field name to value. *)
Abbreviation Fields := (gmap string string).

(** Modelled from the spec: the address models [ShippingAddress] and
    [UserAddress] are loaded with [get_model]; their code lies outside the
    files modelled here. A shipping address is a structural value; an
    address-book entry belongs to a user, is keyed by the content hash of
    its fields and carries the reuse counter [num_orders], which starts at
    zero. [pk] is [None] until the row has been saved. *)
Record ShippingAddress : Type := {
  shipping_pk : option Z;
  shipping_fields : Fields
}.

(** Modelled from the spec: an entry of a user's address book, a separate,
    reusable record keyed by a content hash, with a popularity counter. *)
Record UserAddress : Type := {
  pk : option Z;
  user_id : Z;
  fields : Fields;
  hash : string;
  num_orders : Z
}.

(** The two tables, keyed by primary key. *)
Record DB : Type := {
  shipping_addresses : gmap Z ShippingAddress;
  user_addresses : gmap Z UserAddress
}.

Record User : Type := { id : Z; is_authenticated : bool }.

Record Basket : Type := { is_shipping_required : bool }.

Record HttpRequest : Type := { user : User; basket : Basket }.

(** What the checkout session (from [checkout.session], outside the files
    modelled here) answers to [new_shipping_address_fields()] and
    [user_address_id()]. *)
Record CheckoutSession : Type := {
  new_shipping_address_fields : option Fields;
  user_address_id : option Z
}.

Record OrderPlacementMixin : Type := {
  request : HttpRequest;
  checkout_session : CheckoutSession
}.

(** Python truth values of [addr_data] (a dict or [None]) and [addr_id]
    (an integer or [None]). *)
Definition truthy_fields (d : option Fields) : bool :=
  match d with
  | Some f => negb (bool_decide (f = ∅))
  | None => false
  end.

Definition truthy_id (i : option Z) : bool :=
  match i with
  | Some n => negb (n =? 0)
  | None => false
  end.

(** A stand-in for the content hash in the examples: the field values in
    key order. *)
Definition sample_hash (f : Fields) : string :=
  String.concat "|" ((map_to_list f).*2).

(** [Manager.get]: exactly one row must match. *)
Definition get_one {A : Type} (rows : list A) : result A :=
  match rows with
  | [] => Raise DoesNotExist
  | [x] => Ok x
  | _ => Raise MultipleObjectsReturned
  end.

(** [UserAddress._default_manager.get(pk=addr_id)] *)
Definition get_user_address (db : DB) (addr_id : Z) : result UserAddress :=
  match user_addresses db !! addr_id with
  | Some a => Ok a
  | None => Raise DoesNotExist
  end.

(** The rows of [user.addresses.filter(hash=h)]. *)
Definition addresses_with_hash (db : DB) (u : User) (h : string)
    : list UserAddress :=
  (map_to_list
     (filter (λ kv : Z * UserAddress,
                user_id kv.2 = id u ∧ hash kv.2 = h)
             (user_addresses db))).*2.

(** [ShippingAddress.save()]: a row without primary key is inserted under
    a key not in use. *)
Definition save_shipping_address (a : ShippingAddress) (db : DB)
    : ShippingAddress * DB :=
  let k := match shipping_pk a with
           | Some k => k
           | None => fresh (dom (shipping_addresses db))
           end in
  let a' := {| shipping_pk := Some k; shipping_fields := shipping_fields a |} in
  (a', {| shipping_addresses := <[k := a']> (shipping_addresses db);
          user_addresses := user_addresses db |}).

Section WithHash.

(** [generate_hash] of the address models: the content hash of the
    normalised fields. It belongs to the address models and is taken as a
    parameter. *)
Variable generate_hash : Fields → string.

(** Modelled from the spec: [UserAddress.save()] stores the entry under
    the content hash of its fields; a row without primary key is inserted
    under a key not in use, a row with one replaces the stored row. *)
Definition save_user_address (a : UserAddress) (db : DB) : UserAddress * DB :=
  let k := match pk a with
           | Some k => k
           | None => fresh (dom (user_addresses db))
           end in
  let a' := {| pk := Some k; user_id := user_id a; fields := fields a;
               hash := generate_hash (fields a);
               num_orders := num_orders a |} in
  (a', {| shipping_addresses := shipping_addresses db;
          user_addresses := <[k := a']> (user_addresses db) |}).

(** Modelled from the spec: [populate_alternative_model] copies the address
    fields of one address model into another. *)
Definition populate_shipping_address (address : UserAddress)
    (shipping_addr : ShippingAddress) : ShippingAddress :=
  {| shipping_pk := shipping_pk shipping_addr;
     shipping_fields := fields address |}.

Definition populate_user_address (shipping_addr : ShippingAddress)
    (user_addr : UserAddress) : UserAddress :=
  {| pk := pk user_addr; user_id := user_id user_addr;
     fields := shipping_fields shipping_addr;
     hash := hash user_addr; num_orders := num_orders user_addr |}.

(** An unsaved [ShippingAddress] built from the keyword arguments
    [addr_data]; with no argument it is the blank [ShippingAddress()]. *)
Definition new_ShippingAddress (addr_data : Fields) : ShippingAddress :=
  {| shipping_pk := None; shipping_fields := addr_data |}.

(** Modelled from the spec: [UserAddress(user=user)], a blank entry of the
    user's address book whose counter has its default, zero. *)
Definition new_UserAddress (u : User) : UserAddress :=
  {| pk := None; user_id := id u; fields := ∅; hash := "";
     num_orders := 0 |}.

Definition get_shipping_address (self : OrderPlacementMixin) (db : DB)
    (basket : option Basket) : result (option ShippingAddress) :=
  let basket := match basket with
                | Some b => b
                | None => Checkout.basket (request self)
                end in
  if negb (is_shipping_required basket) then Ok None
  else
    let addr_data := new_shipping_address_fields (checkout_session self) in
    let addr_id := user_address_id (checkout_session self) in
    if truthy_fields addr_data then
      Ok (Some (new_ShippingAddress (default ∅ addr_data)))
    else if truthy_id addr_id then
      match get_user_address db (default 0 addr_id) with
      | Raise DoesNotExist =>
          Raise (UnableToPlaceOrder
                   ("The selected shipping address no longer exists. "
                    +:+ "Please select or enter another"))
      | Raise e => Raise e
      | Ok address =>
          Ok (Some (populate_shipping_address address (new_ShippingAddress ∅)))
      end
    else Raise (UnableToPlaceOrder "No shipping address data found").

Definition update_address_book (u : User) (shipping_addr : ShippingAddress)
    (db : DB) : result DB :=
  let found := get_one (addresses_with_hash db u
                          (generate_hash (shipping_fields shipping_addr))) in
  user_addr ←
    match found with
    | Ok user_addr => Ok user_addr
    | Raise DoesNotExist =>
        (* Create a new user address *)
        Ok (populate_user_address shipping_addr (new_UserAddress u))
    | Raise e => Raise e
    end;
  let user_addr :=
    {| pk := pk user_addr; user_id := user_id user_addr;
       fields := fields user_addr; hash := hash user_addr;
       num_orders := num_orders user_addr + 1 |} in
  Ok (save_user_address user_addr db).2.

Definition create_shipping_address (self : OrderPlacementMixin) (db : DB)
    (basket : option Basket) : result (option ShippingAddress * DB) :=
  addr ← get_shipping_address self db basket;
  match addr with
  | Some addr =>
      let saved := save_shipping_address addr db in
      if is_authenticated (user (request self)) then
        db' ← update_address_book (user (request self)) saved.1 saved.2;
        Ok (Some saved.1, db')
      else Ok (Some saved.1, saved.2)
  | None => Ok (None, db)
  end.

(** The deprecated helpers of the mixin. *)

(** [create_shipping_address_from_form_fields] *)
Definition create_shipping_address_from_form_fields (addr_data : Fields)
    (db : DB) : ShippingAddress * DB :=
  save_shipping_address (new_ShippingAddress addr_data) db.

(** [UserAddress._default_manager.filter(hash=h)]: the entries of every
    user under a hash. *)
Definition all_addresses_with_hash (db : DB) (h : string) : list UserAddress :=
  (map_to_list
     (filter (λ kv : Z * UserAddress, hash kv.2 = h) (user_addresses db))).*2.

(** [create_user_address]: for a signed-in user the entered address goes
    into the address book unless an entry with its hash is found. The
    session data are copied before [user_id] is added to them. *)
Definition create_user_address (self : OrderPlacementMixin)
    (session_addr_data : Fields) (db : DB) : result DB :=
  if is_authenticated (user (request self)) then
    let user_addr :=
      {| pk := None; user_id := id (user (request self));
         fields := session_addr_data; hash := ""; num_orders := 0 |} in
    match get_one (all_addresses_with_hash db
                     (generate_hash (fields user_addr))) with
    | Ok _ => Ok db
    | Raise DoesNotExist => Ok (save_user_address user_addr db).2
    | Raise e => Raise e
    end
  else Ok db.

(** [create_shipping_address_from_user_address] *)
Definition create_shipping_address_from_user_address (addr_id : Z) (db : DB)
    : result (ShippingAddress * DB) :=
  address ← get_user_address db addr_id;
  (* Increment the number of orders to help determine popularity *)
  let address :=
    {| pk := pk address; user_id := user_id address;
       fields := fields address; hash := hash address;
       num_orders := num_orders address + 1 |} in
  let saved := save_user_address address db in
  let shipping_addr :=
    populate_shipping_address saved.1 (new_ShippingAddress ∅) in
  Ok (save_shipping_address shipping_addr saved.2).

End WithHash.

(** Every entry of the address book is stored under its own primary
    key, as rows written by [save] are. *)
Definition well_keyed (db : DB) : Prop :=
  ∀ k e, user_addresses db !! k = Some e → pk e = Some k.

(** Fixtures for the examples: a signed-in customer whose session holds
    either a freshly entered address or a reference into the address book. *)
Definition sample_fields : Fields :=
  {[ "line1" := "75 Smith Road"; "postcode" := "N4 8TY" ]}.

Definition sample_request : HttpRequest :=
  {| user := {| id := 1; is_authenticated := true |};
     basket := {| is_shipping_required := true |} |}.

Definition sample_view_new_address : OrderPlacementMixin :=
  {| request := sample_request;
     checkout_session := {| new_shipping_address_fields := Some sample_fields;
                            user_address_id := None |} |}.

Definition sample_view_address_id : OrderPlacementMixin :=
  {| request := sample_request;
     checkout_session := {| new_shipping_address_fields := None;
                            user_address_id := Some 7 |} |}.

Definition sample_entry : UserAddress :=
  {| pk := Some 7; user_id := 1; fields := sample_fields;
     hash := sample_hash sample_fields; num_orders := 3 |}.

Definition empty_db : DB :=
  {| shipping_addresses := ∅; user_addresses := ∅ |}.

Definition sample_db : DB :=
  {| shipping_addresses := ∅; user_addresses := {[ 7 := sample_entry ]} |}.

Definition sample_shipping_address : ShippingAddress :=
  {| shipping_pk := Some 0; shipping_fields := sample_fields |}.

(** An address book in which the customer has the same address twice. *)
Definition duplicated_db : DB :=
  {| shipping_addresses := ∅;
     user_addresses :=
       {[ 7 := sample_entry;
          8 := {| pk := Some 8; user_id := 1; fields := sample_fields;
                  hash := sample_hash sample_fields; num_orders := 1 |} ]} |}.

End Checkout.

(** ** Bulk-edit dispatch: [oscar/views/generic.py] *)

Module BulkEdit.

(** [request.POST] is a [QueryDict], every key holding a list of values;
    [request.META] is a plain dictionary. *)
Record HttpRequest : Type := {
  POST : gmap string (list string);
  META : gmap string string
}.

(** [QueryDict.get(key, default)]: the last value of the key. *)
Definition POST_get (request : HttpRequest) (key default : string) : string :=
  match POST request !! key with
  | Some vs => match last vs with
               | Some v => v
               | None => default
               end
  | None => default
  end.

(** [QueryDict.getlist(key)] *)
Definition POST_getlist (request : HttpRequest) (key : string) : list string :=
  match POST request !! key with
  | Some vs => vs
  | None => []
  end.

(** [str.lower()], on the ASCII letters. *)
Definition lower_ascii (c : ascii) : ascii :=
  let n := N_of_ascii c in
  if ((65 <=? n) && (n <=? 90))%N then ascii_of_N (n + 32) else c.

Fixpoint lower (s : string) : string :=
  match s with
  | EmptyString => EmptyString
  | String c s' => String (lower_ascii c) (lower s')
  end.

(** [int(s)] on a string: optional surrounding white space, an optional
    sign and at least one decimal digit; anything else is a [ValueError]. *)
Definition is_space (c : ascii) : bool :=
  let n := N_of_ascii c in
  ((n =? 32) || ((9 <=? n) && (n <=? 13)))%N.

Definition digit_value (c : ascii) : option Z :=
  let n := N_of_ascii c in
  if ((48 <=? n) && (n <=? 57))%N then Some (Z.of_N (n - 48)) else None.

Fixpoint digits (acc : Z) (cs : list ascii) : option Z :=
  match cs with
  | [] => Some acc
  | c :: cs' =>
      match digit_value c with
      | Some d => digits (10 * acc + d) cs'
      | None => None
      end
  end.

Fixpoint lstrip (cs : list ascii) : list ascii :=
  match cs with
  | c :: cs' => if is_space c then lstrip cs' else cs
  | [] => []
  end.

Definition strip (cs : list ascii) : list ascii :=
  reverse (lstrip (reverse (lstrip cs))).

Definition unsigned (cs : list ascii) : option Z :=
  match cs with
  | [] => None
  | _ => digits 0 cs
  end.

Definition int (s : string) : result Z :=
  let parsed :=
    match strip (String.list_ascii_of_string s) with
    | "-"%char :: cs => Z.opp <$> unsigned cs
    | "+"%char :: cs => unsigned cs
    | cs => unsigned cs
    end in
  match parsed with
  | Some n => Ok n
  | None => Raise (ValueError "invalid literal for int() with base 10")
  end.

(** [map(int, ids)], a list in Python 2; the first failure propagates. *)
Fixpoint map_int (ids : list string) : result (list Z) :=
  match ids with
  | [] => Ok []
  | s :: rest =>
      n ← int s;
      ns ← map_int rest;
      Ok (n :: ns)
  end.

(** ["%s" % name] for a string or [None]. *)
Definition str (name : option string) : string :=
  match name with
  | Some s => s
  | None => "None"
  end.

Section View.

Context {Obj Response : Type}.

(** A view using the mixin: its class attributes, the table behind
    [self.model.objects], and its methods as [getattr(self, name)] finds
    them. [queryset_object_name] is [object_list.model._meta.object_name]
    when [get_queryset()] returns something with a [model]. A method is
    taken to answer with a response; what a method or the database driver
    may raise of its own is outside the model. *)
Record BulkEditMixin : Type := {
  action_param : string;
  actions : option (list string);
  checkbox_object_name : option string;
  queryset_object_name : option string;
  model_objects : gmap Z Obj;
  methods : string → option (HttpRequest → list Obj → Response)
}.

(** What a POST comes to: an error message followed by a redirect, or the
    call of a method of the view on the selected objects. *)
Inductive outcome : Type :=
  | ErrorRedirect (message url : string)
  | Handled (action : string) (objects : list Obj) (response : Response).

Definition get_checkbox_object_name (self : BulkEditMixin) : option string :=
  match checkbox_object_name self with
  | Some (String c s) => Some (String c s)
  | _ =>
      match queryset_object_name self with
      | Some object_name => Some (lower object_name)
      | None => None
      end
  end.

Definition get_error_url (request : HttpRequest) : string :=
  default "." (META request !! "HTTP_REFERER").

(** [in_bulk(ids)] keeps the objects that exist; indexing the dictionary
    with a missing id is a [KeyError]. *)
Fixpoint get_objects (self : BulkEditMixin) (ids : list Z)
    : result (list Obj) :=
  match ids with
  | [] => Ok []
  | i :: rest =>
      match model_objects self !! i with
      | Some o => os ← get_objects self rest; Ok (o :: os)
      | None => Raise (KeyError i)
      end
  end.

(** [not self.actions or action not in self.actions] *)
Definition action_refused (self : BulkEditMixin) (action : string) : bool :=
  match actions self with
  | None | Some [] => true
  | Some acts => negb (bool_decide (action ∈ acts))
  end.

Definition post (self : BulkEditMixin) (request : HttpRequest)
    : result outcome :=
  let action := lower (POST_get request (action_param self) "") in
  if action_refused self action then
    Ok (ErrorRedirect "Invalid action" (get_error_url request))
  else
    ids ← map_int (POST_getlist request
                     ("selected_" +:+ str (get_checkbox_object_name self)));
    match ids with
    | [] =>
        Ok (ErrorRedirect
              ("You need to select some "
               +:+ str (get_checkbox_object_name self) +:+ "s")
              (get_error_url request))
    | _ =>
        objects ← get_objects self ids;
        match methods self action with
        | Some method => Ok (Handled action objects (method request objects))
        | None => Raise (AttributeError action)
        end
    end.

End View.

Arguments BulkEditMixin : clear implicits.
Arguments outcome : clear implicits.

(** Fixtures for the examples: a product list view that permits the one
    bulk action [delete], and two POST requests against it. *)
Definition sample_view : BulkEditMixin string string :=
  {| action_param := "action";
     actions := Some ["delete"];
     checkbox_object_name := None;
     queryset_object_name := Some "Product";
     model_objects := {[ 3 := "Widget"; 5 := "Gadget" ]};
     methods := λ method_name,
       if bool_decide (method_name = "delete")
       then Some (λ _ objects, "deleted " +:+ String.concat ", " objects)
       else if bool_decide (method_name = "get_queryset")
       then Some (λ _ _, "queryset")
       else None |}.

Definition sample_delete_request : HttpRequest :=
  {| POST := {[ "action" := ["Delete"]; "selected_product" := ["5"; " 3"] ]};
     META := {[ "HTTP_REFERER" := "/dashboard/products/" ]} |}.

Definition sample_forged_request : HttpRequest :=
  {| POST := {[ "action" := ["get_queryset"];
                "selected_product" := ["5"] ]};
     META := ∅ |}.

End BulkEdit.

(** ** Action forwarding: [PostActionMixin] of [oscar/views/generic.py] *)

Module PostAction.

Import BulkEdit.

Section View.

Context {Obj Response : Type}.

(** A detail view using the mixin: [get_object()], which may raise; the
    attributes [hasattr]/[getattr] find on the view, a [do_*] method
    answering with the response it assigns to [self.response]; and the
    [post] of the next class, which [super().post] reaches. *)
Record PostActionMixin : Type := {
  get_object : result Obj;
  attributes : string → option (Obj → Response);
  super_post : HttpRequest → Response
}.

(** What a POST comes to: the call of a method of the view, or the [post]
    of the next class, after an error message or without one. *)
Inductive outcome : Type :=
  | Dispatched (method_name : string) (response : Response)
  | Forwarded (message : option string) (response : Response).

(** [request.POST['action']] is the last value of the key; a key without
    values yields the empty list, which has no [lower]. *)
Definition post (self : PostActionMixin) (request : HttpRequest)
    : result outcome :=
  match POST request !! "action" with
  | Some values =>
      model ← get_object self;
      match last values with
      | Some action =>
          let method_name := "do_" +:+ lower action in
          match attributes self method_name with
          | Some method => Ok (Dispatched method_name (method model))
          | None =>
              Ok (Forwarded (Some "Invalid form submission")
                            (super_post self request))
          end
      | None => Raise (AttributeError "lower")
      end
  | None => Ok (Forwarded None (super_post self request))
  end.

End View.

Arguments PostActionMixin : clear implicits.
Arguments outcome : clear implicits.

(** A fixture for the examples: an order page with the one action
    [do_cancel]. *)
Definition sample_detail_view : PostActionMixin string string :=
  {| get_object := Ok "order 7";
     attributes := λ attribute,
       if bool_decide (attribute = "do_cancel")
       then Some (λ model, "cancelled " +:+ model)
       else None;
     super_post := λ _, "form" |}.

End PostAction.

(** ** Phone number validation: [PhoneNumberMixin] of
       [oscar/views/generic.py] *)

Module PhoneNumberForm.

Record Country : Type := {
  iso_3166_1_a2 : string;
  printable_name : string   (* what ["%s" % country] shows *)
}.

(** The form as [clean_phone_number] reads it: the cleaned phone number;
    the [country] of [self.instance] when it has one (which may be [None]);
    the queryset of the [country] field when there is such a field; the
    [country] entry of [cleaned_data] when the key is present. *)
Record Form : Type := {
  phone_number : option string;
  instance_country : option (option Country);
  country_field_queryset : option (list Country);
  cleaned_country : option (option Country)
}.

Section Clean.

(** The phone number library: [PhoneNumber.from_string(number, region)],
    [None] standing for [NumberParseException], and [is_valid()]. *)
Context {PhoneNumber : Type}.
Variable from_string : string → option string → option PhoneNumber.
Variable is_valid : PhoneNumber → bool.

Inductive outcome : Type :=
  | Return (value : option PhoneNumber)
  | ValidationError (message : string)
  | IndexError          (* [queryset[0]] on an empty queryset *)
  | NoneAttributeError. (* [country.iso_3166_1_a2] on [None] *)

(** [number in validators.EMPTY_VALUES] *)
Definition is_empty_value (number : option string) : bool :=
  match number with
  | None | Some "" => true
  | Some _ => false
  end.

(** The hint: the country of the instance, else the first country the
    field offers ([IndexError], here [inr], when it offers none), else
    [None]. *)
Definition hinted_country (self : Form) : option Country + unit :=
  match instance_country self with
  | Some c => inl c
  | None =>
      match country_field_queryset self with
      | Some (c :: _) => inl (Some c)
      | Some [] => inr ()
      | None => inl None
      end
  end.

Definition validate_local (number : string) (country : option Country)
    : outcome :=
  match country with
  | None => NoneAttributeError
  | Some c =>
      match from_string number (Some (iso_3166_1_a2 c)) with
      | Some phone =>
          if is_valid phone then Return (Some phone)
          else ValidationError
                 ("This is not a valid local phone format for "
                  +:+ printable_name c +:+ ".")
      | None =>
          ValidationError
            "This is not a valid local or international phone format."
      end
  end.

Definition clean_phone_number (self : Form) : outcome :=
  if is_empty_value (phone_number self) then Return None
  else
    let number := default "" (phone_number self) in
    match from_string number None with
    | Some phone => Return (Some phone)
    | None =>
        match hinted_country self with
        | inr _ => IndexError
        | inl (Some country) =>
            (* [country = self.cleaned_data.get('country', country)] *)
            validate_local number
              (match cleaned_country self with
               | Some c => c
               | None => Some country
               end)
        | inl None =>
            ValidationError "This is not a valid international phone format."
        end
    end.

End Clean.

Arguments outcome : clear implicits.

(** Fixtures for the examples: a toy phone number library that reads
    numbers starting with [+] as international and numbers starting with
    [0] as local to the region, and finds a number valid when it has at
    least nine characters. *)
Definition sample_from_string (number : string) (region : option string)
    : option string :=
  match region, number with
  | None, String "+" _ => Some number
  | None, _ => None
  | Some r, String "0" rest => Some (r +:+ " " +:+ rest)
  | Some _, _ => None
  end.

Definition sample_is_valid (phone : string) : bool :=
  Nat.leb 9 (String.length phone).

Definition great_britain : Country :=
  {| iso_3166_1_a2 := "GB"; printable_name := "United Kingdom" |}.

Definition sample_form : Form :=
  {| phone_number := Some "02071234567";
     instance_country := None;
     country_field_queryset := Some [great_britain];
     cleaned_country := None |}.

End PhoneNumberForm.

(** ** Payment details: the payment half of [oscar/apps/checkout/mixins.py] *)

Module Payment.

Record Line : Type := { line_id : Z; quantity : Z }.

Record Order : Type := { order_id : Z; number : string; lines : list Line }.

(** A payment event as [add_payment_event] builds it,
    [PaymentEvent(event_type=..., amount=..., reference=...)], together
    with the [order] it is given later and the primary key it gets when
    saved. The event type is named by its [name]. *)
Record PaymentEvent : Type := {
  event_pk : option nat;
  event_type : string;
  amount : Z;
  reference : option string;
  event_order : option Z
}.

(** A payment source: whatever the payment code put in it, the [order] it
    is given and the primary key it gets when saved. *)
Record Source : Type := {
  source_pk : option nat;
  source_data : string;
  source_order : option Z
}.

(** [PaymentEventQuantity.objects.create(event=..., line=..., quantity=...)];
    the event is referred to by its primary key. *)
Record PaymentEventQuantity : Type := {
  event : option nat;
  line : Line;
  event_quantity : Z
}.

(** The tables, rows in the order of their primary keys: the primary key
    of a row is its position. *)
Record Tables : Type := {
  payment_event_types : list string;
  payment_events : list PaymentEvent;
  payment_event_quantities : list PaymentEventQuantity;
  sources : list Source
}.

(** The two buffers of the view, [None] until something is added. *)
Record View : Type := {
  _payment_sources : option (list Source);
  _payment_events : option (list PaymentEvent)
}.

(** [Model.save()]: a row without primary key is appended and gets its
    position as primary key; a row with one replaces the row stored
    there. Primary keys are handed out by the table alone, so a row that
    has one has its place in the table. *)
Definition save_row {A : Type} (pk : A → option nat) (set_pk : nat → A → A)
    (row : A) (table : list A) : A * list A :=
  match pk row with
  | None => let row' := set_pk (length table) row in (row', table ++ [row'])
  | Some i => (row, <[i := row]> table)
  end.

Definition set_event_pk (i : nat) (e : PaymentEvent) : PaymentEvent :=
  {| event_pk := Some i; event_type := event_type e; amount := amount e;
     reference := reference e; event_order := event_order e |}.

Definition set_event_order (o : Order) (e : PaymentEvent) : PaymentEvent :=
  {| event_pk := event_pk e; event_type := event_type e; amount := amount e;
     reference := reference e; event_order := Some (order_id o) |}.

Definition set_source_pk (i : nat) (s : Source) : Source :=
  {| source_pk := Some i; source_data := source_data s;
     source_order := source_order s |}.

Definition set_source_order (o : Order) (s : Source) : Source :=
  {| source_pk := source_pk s; source_data := source_data s;
     source_order := Some (order_id o) |}.

Definition add_payment_source (self : View) (source : Source) : View :=
  {| _payment_sources :=
       Some (match _payment_sources self with
             | Some sources => sources
             | None => []
             end ++ [source]);
     _payment_events := _payment_events self |}.

(** [PaymentEventType.objects.get_or_create(name=event_type_name)] *)
Definition get_or_create_event_type (name : string) (types : list string)
    : result (list string) :=
  match filter (λ t, t = name) types with
  | [] => Ok (types ++ [name])
  | [_] => Ok types
  | _ => Raise MultipleObjectsReturned
  end.

Definition add_payment_event (self : View) (tables : Tables)
    (event_type_name : string) (amount : Z) (reference : option string)
    : result (View * Tables) :=
  types ← get_or_create_event_type event_type_name
            (payment_event_types tables);
  let event := {| event_pk := None; event_type := event_type_name;
                  amount := amount; reference := reference;
                  event_order := None |} in
  Ok ({| _payment_sources := _payment_sources self;
         _payment_events :=
           Some (match _payment_events self with
                 | Some events => events
                 | None => []
                 end ++ [event]) |},
      {| payment_event_types := types;
         payment_events := payment_events tables;
         payment_event_quantities := payment_event_quantities tables;
         sources := sources tables |}).

(** [for event in self._payment_events: event.order = order; event.save()]:
    the events as they are after the loop, and the table. *)
Fixpoint save_events (o : Order) (events : list PaymentEvent)
    (table : list PaymentEvent) : list PaymentEvent * list PaymentEvent :=
  match events with
  | [] => ([], table)
  | event :: rest =>
      let saved := save_row event_pk set_event_pk
                            (set_event_order o event) table in
      let done := save_events o rest saved.2 in
      (saved.1 :: done.1, done.2)
  end.

(** The second loop of [save_payment_events] uses the loop variable of the
    first, which still names the last event of the buffer. *)
Definition save_payment_events (self : View) (tables : Tables) (o : Order)
    : View * Tables :=
  match _payment_events self with
  | None | Some [] => (self, tables)
  | Some events =>
      let saved := save_events o events (payment_events tables) in
      let event := last saved.1 in
      ({| _payment_sources := _payment_sources self;
          _payment_events := Some saved.1 |},
       {| payment_event_types := payment_event_types tables;
          payment_events := saved.2;
          payment_event_quantities :=
            payment_event_quantities tables
            ++ ((λ l, {| event := event ≫= event_pk; line := l;
                         event_quantity := quantity l |}) <$> lines o);
          sources := sources tables |})
  end.

Fixpoint save_sources (o : Order) (srcs : list Source) (table : list Source)
    : list Source * list Source :=
  match srcs with
  | [] => ([], table)
  | source :: rest =>
      let saved := save_row source_pk set_source_pk
                            (set_source_order o source) table in
      let done := save_sources o rest saved.2 in
      (saved.1 :: done.1, done.2)
  end.

Definition save_payment_sources (self : View) (tables : Tables) (o : Order)
    : View * Tables :=
  match _payment_sources self with
  | None | Some [] => (self, tables)
  | Some srcs =>
      let saved := save_sources o srcs (sources tables) in
      ({| _payment_sources := Some saved.1;
          _payment_events := _payment_events self |},
       {| payment_event_types := payment_event_types tables;
          payment_events := payment_events tables;
          payment_event_quantities := payment_event_quantities tables;
          sources := saved.2 |})
  end.


(** The rows the first loop of [save_payment_events] writes for events that
    have not been saved before. *)
Definition saved_events (o : Order) (table : list PaymentEvent)
    (events : list PaymentEvent) : list PaymentEvent :=
  imap (λ i e, set_event_pk (length table + i) (set_event_order o e)) events.

Definition saved_sources (o : Order) (table : list Source) (srcs : list Source)
    : list Source :=
  imap (λ i s, set_source_pk (length table + i) (set_source_order o s)) srcs.

(** Fixtures for the examples. *)
Definition empty_view : View :=
  {| _payment_sources := None; _payment_events := None |}.

Definition empty_tables : Tables :=
  {| payment_event_types := []; payment_events := [];
     payment_event_quantities := []; sources := [] |}.

Definition sample_order : Order :=
  {| order_id := 12; number := "100012";
     lines := [ {| line_id := 1; quantity := 2 |};
                {| line_id := 2; quantity := 1 |} ] |}.

Definition sample_events : list PaymentEvent :=
  [ {| event_pk := None; event_type := "pre-auth"; amount := 3000;
       reference := None; event_order := None |};
    {| event_pk := None; event_type := "settle"; amount := 3000;
       reference := Some "ref-9"; event_order := None |} ].

End Payment.

(** ** Placing the order: [place_order] of [oscar/apps/checkout/mixins.py] *)

Module OrderPlacement.

(** Extra keyword arguments: name to value, a string or [None]. *)
Abbreviation Kwargs := (gmap string (option string)).

Section PlaceOrder.

(** The shipping method [get_shipping_method(basket)] answers with comes
    from the checkout session mixin and is taken as given. *)
Context {Method : Type}.

(** The keyword arguments of [OrderCreator().place_order(...)]. *)
Record OrderArguments : Type := {
  basket : Checkout.Basket;
  total_incl_tax : Z;
  total_excl_tax : Z;
  user : Checkout.User;
  shipping_method : Method;
  shipping_address : option Checkout.ShippingAddress;
  billing_address : option Checkout.ShippingAddress;
  order_number : string;
  status : option string;
  kwargs : Kwargs
}.

(** [create_billing_address] and [get_initial_order_status] of the mixin
    both answer [None]. *)
Definition create_billing_address
    (shipping_address : option Checkout.ShippingAddress)
    : option Checkout.ShippingAddress := None.

Definition get_initial_order_status (b : Checkout.Basket) : option string :=
  None.

(** The part of [place_order] between the shipping address and the call of
    the order creator: the status, the user and the guest email.
    [guest_email] is what [checkout_session.get_guest_email()] answers. *)
Definition order_arguments (self : Checkout.OrderPlacementMixin)
    (guest_email : option string) (method : Method)
    (shipping_address : option Checkout.ShippingAddress)
    (order_number : string) (b : Checkout.Basket)
    (total_incl_tax total_excl_tax : Z) (u : option Checkout.User)
    (kw : Kwargs) : OrderArguments :=
  let billing_address := create_billing_address shipping_address in
  let '(status, kw) :=
    match kw !! "status" with
    | None => (get_initial_order_status b, kw)
    | Some value => (value, delete "status" kw)      (* [kwargs.pop] *)
    end in
  (* We allow a user to be passed in to handle cases where the order is
     being placed on behalf of someone else. *)
  let u := match u with
           | Some u => u
           | None => Checkout.user (Checkout.request self)
           end in
  (* Set guest email address for anon checkout, taking care not to
     clobber one that was passed explicitly. *)
  let kw :=
    if negb (Checkout.is_authenticated (Checkout.user (Checkout.request self)))
       && bool_decide (kw !! "guest_email" = None)
    then <["guest_email" := guest_email]> kw
    else kw in
  {| basket := b; total_incl_tax := total_incl_tax;
     total_excl_tax := total_excl_tax; user := u;
     shipping_method := method; shipping_address := shipping_address;
     billing_address := billing_address; order_number := order_number;
     status := status; kwargs := kw |}.


Record State : Type := {
  db : Checkout.DB;
  tables : Payment.Tables;
  payments : Payment.View
}.

(** The order and the state after it, or the exception raised; what a
    failed call leaves behind in the database is not part of the model. *)
Inductive outcome : Type :=
  | Placed (o : Payment.Order) (st : State)
  | Raised (e : exception)
  | TypeError.

Variable generate_hash : Checkout.Fields → string.

(** [OrderCreator().place_order], from [order.utils]. *)
Variable creator : OrderArguments → result Payment.Order.


End PlaceOrder.

Arguments OrderArguments : clear implicits.

(** Fixtures for the examples: a visitor who is not signed in, and an
    order creator that answers with an order without lines. *)
Definition anonymous_view : Checkout.OrderPlacementMixin :=
  {| Checkout.request :=
       {| Checkout.user := {| Checkout.id := 0;
                              Checkout.is_authenticated := false |};
          Checkout.basket := {| Checkout.is_shipping_required := true |} |};
     Checkout.checkout_session :=
       {| Checkout.new_shipping_address_fields := Some Checkout.sample_fields;
          Checkout.user_address_id := None |} |}.


End OrderPlacement.

(** ** The confirmation message: [send_confirmation_message] of
       [oscar/apps/checkout/mixins.py] *)

Module Confirmation.

(** The messages of a communication event type, a dictionary with the
    rendered [subject], [body] and the like. *)
Abbreviation Messages := (gmap string string).

Record Site : Type := { domain : string }.

(** The template context [ctx]. *)
Record Context : Type := {
  ctx_user : Checkout.User;
  ctx_order : Payment.Order;
  ctx_site : Site;
  ctx_lines : list Payment.Line;
  ctx_status_url : option string
}.

Section Send.

(** What lies outside the mixin: the communication event types with their
    messages, the URL resolver and the verification hash of an order. *)
Context {EventType : Type}.
Variable get_and_render : string → Context → Messages.
Variable get_messages : EventType → Context → Messages.
Variable reverse_anon_order : string → string → string.
Variable verification_hash : Payment.Order → string.

(** What the method does, in the order it does it. *)
Inductive effect : Type :=
  | CreateCommunicationEvent (o : Payment.Order) (event_type : EventType)
  | DispatchOrderMessages (o : Payment.Order) (messages : Messages)
                          (event_type : option EventType)
  | LogInfo (message : string)
  | LogWarning (message : string).

(** The effects of a call that returned, or those of a call that ended in
    the [KeyError] of messages without [body]. *)
Inductive outcome : Type :=
  | Returned (effects : list effect)
  | BodyKeyError (effects : list effect).

(** [sites] holds the two sites the method asks for: the one of
    [get_current_site(request)], put into the context, and the one of
    [Site.objects.get_current()], whose domain starts the status URL. *)
Definition context (self : Checkout.OrderPlacementMixin)
    (sites : Site * Site) (o : Payment.Order) : Context :=
  let current_site := sites.2 in
  {| ctx_user := Checkout.user (Checkout.request self);
     ctx_order := o;
     ctx_site := sites.1;
     ctx_lines := Payment.lines o;
     ctx_status_url :=
       if negb (Checkout.is_authenticated
                  (Checkout.user (Checkout.request self)))
       then Some ("http://" +:+ domain current_site
                  +:+ reverse_anon_order (Payment.number o)
                                         (verification_hash o))
       else None |}.

(** [event_type] is what [CommunicationEventType.objects.get(code=code)]
    finds, [None] for [DoesNotExist]. *)
Definition send_confirmation_message (self : Checkout.OrderPlacementMixin)
    (code : string) (sites : Site * Site) (event_type : option EventType)
    (o : Payment.Order) : outcome :=
  let ctx := context self sites o in
  let '(created, messages) :=
    match event_type with
    | None => ([], get_and_render code ctx)
    | Some t => ([CreateCommunicationEvent o t], get_messages t ctx)
    end in
  let warning :=
    LogWarning ("Order #" +:+ Payment.number o +:+ " - no " +:+ code
                +:+ " communication event type") in
  if bool_decide (messages = ∅) then Returned (created ++ [warning])
  else
    match messages !! "body" with
    | None => BodyKeyError created
    | Some "" => Returned (created ++ [warning])
    | Some _ =>
        Returned
          (created
           ++ [LogInfo ("Order #" +:+ Payment.number o +:+ " - sending "
                        +:+ code +:+ " messages");
               DispatchOrderMessages o messages event_type])
    end.

(** The messages [send_confirmation_message] has rendered, and the
    communication event it has created, by the time it decides whether to
    dispatch. *)
Definition rendered_messages (self : Checkout.OrderPlacementMixin)
    (code : string) (sites : Site * Site) (event_type : option EventType)
    (o : Payment.Order) : Messages :=
  match event_type with
  | None => get_and_render code (context self sites o)
  | Some t => get_messages t (context self sites o)
  end.

Definition created_events (event_type : option EventType)
    (o : Payment.Order) : list effect :=
  match event_type with
  | None => []
  | Some t => [CreateCommunicationEvent o t]
  end.

End Send.

Arguments effect : clear implicits.
Arguments outcome : clear implicits.

(** Fixtures for the examples. *)
Definition sample_site : Site * Site :=
  ({| domain := "example.com" |}, {| domain := "example.com" |}).

Definition sample_render (code : string) (ctx : Context) : Messages :=
  {[ "subject" := "Order " +:+ Payment.number (ctx_order ctx);
     "body" := default "" (ctx_status_url ctx) ]}.

Definition sample_reverse (number hash : string) : string :=
  "/order/" +:+ number +:+ "/" +:+ hash +:+ "/".

End Confirmation.

(** * Theorems *)

Section ShippingFacts.
Import Shipping.

Lemma items_charge_cons ppi l (ls : list BasketLine) :
  items_charge ppi (l :: ls) = quantity l * ppi + items_charge ppi ls.
Proof. reflexivity. Qed.

Lemma total_quantity_cons l (ls : list BasketLine) :
  total_quantity (l :: ls) = quantity l + total_quantity ls.
Proof. reflexivity. Qed.

Lemma charge_loop_sum ppi (ls : list BasketLine) acc :
  charge_loop ppi acc ls = acc + items_charge ppi ls.
Proof.
  revert acc.
  induction ls as [|l ls IH]; intros acc.
  - unfold charge_loop, items_charge. simpl. lia.
  - rewrite items_charge_cons.
    change (charge_loop ppi acc (l :: ls))
      with (charge_loop ppi (acc + quantity l * ppi) ls).
    rewrite IH. lia.
Qed.

Lemma items_charge_total ppi (ls : list BasketLine) :
  items_charge ppi ls = total_quantity ls * ppi.
Proof.
  induction ls as [|l ls IH]; [reflexivity|].
  rewrite items_charge_cons, total_quantity_cons, IH. lia.
Qed.

(** C1. Once a basket is bound with [set_basket], the tax-inclusive and the
    tax-exclusive charge both are [price_per_order] plus the sum over the
    basket's lines of [quantity × price_per_item]; with a charge of 5.00 per
    order, 1.50 per item and lines totalling 4 items they are 11.00. *)
Theorem basket_charge_is_linear :
  (∀ self basket,
     basket_charge_incl_tax (set_basket self basket)
     = Ok (price_per_order self
           + items_charge (price_per_item self) (lines basket)) ∧
     basket_charge_excl_tax (set_basket self basket)
     = Ok (price_per_order self
           + items_charge (price_per_item self) (lines basket))) ∧
  (∀ self basket,
     price_per_order self = 500 →
     price_per_item self = 150 →
     total_quantity (lines basket) = 4 →
     basket_charge_incl_tax (set_basket self basket) = Ok 1100 ∧
     basket_charge_excl_tax (set_basket self basket) = Ok 1100).
Proof.
  assert (Hlin : ∀ self basket,
             basket_charge_incl_tax (set_basket self basket)
             = Ok (price_per_order self
                   + items_charge (price_per_item self) (lines basket))).
  { intros self basket. unfold basket_charge_incl_tax, set_basket.
    cbn [_basket price_per_item price_per_order].
    rewrite charge_loop_sum. reflexivity. }
  split.
  - intros self basket. split; [|unfold basket_charge_excl_tax]; apply Hlin.
  - intros self basket Hpo Hpi Hq. unfold basket_charge_excl_tax.
    rewrite Hlin, items_charge_total, Hpo, Hpi, Hq. split; reflexivity.
Qed.

Lemma basket_charge_is_linear_witness :
  basket_charge_incl_tax
    (set_basket
       {| code := "standard"; name := "Standard"; description := "";
          price_currency := "GBP"; price_per_order := 500;
          price_per_item := 150; _basket := None |}
       {| lines := [ {| quantity := 1 |}; {| quantity := 3 |} ] |})
  = Ok 1100.
Proof.
  apply (proj2 basket_charge_is_linear); reflexivity.
Defined.

End ShippingFacts.

Section LedgerFacts.
Import Ledger.

Implicit Types (led : ledger) (l : Line) (t : ShippingEventType)
  (ev : ShippingEvent) (r : ShippingEventQuantity).

Lemma cumulative_nil l t : cumulative [] l t = 0.
Proof. reflexivity. Qed.

Lemma cumulative_snoc led r l t :
  cumulative (led ++ [r]) l t =
  cumulative led l t + (if matches l t r then event_quantity r else 0).
Proof.
  unfold cumulative. rewrite filter_app, fmap_app, foldr_app.
  induction (filter (λ r0, matches l t r0 = true) led) as [|x xs IH].
  - rewrite filter_cons, filter_nil. cbn [fmap list_fmap foldr].
    destruct (matches l t r); case_decide; try congruence; cbn; lia.
  - rewrite fmap_cons. cbn [foldr]. rewrite IH. lia.
Qed.

Lemma matches_true l t r :
  matches l t r = true ↔ line r = l ∧ event_type (event r) = t.
Proof.
  unfold matches. rewrite andb_true_iff, !bool_decide_eq_true. tauto.
Qed.

Lemma cumulative_snoc_same led ev l q :
  cumulative (led ++ [{| event := ev; line := l; event_quantity := q |}])
             l (event_type ev)
  = cumulative led l (event_type ev) + q.
Proof.
  rewrite cumulative_snoc.
  replace (matches l (event_type ev) _) with true; [reflexivity|].
  symmetry. apply matches_true. split; reflexivity.
Qed.

Lemma latest_type_snoc led ev l q :
  latest_type (led ++ [{| event := ev; line := l; event_quantity := q |}]) l
  = Some (event_type ev).
Proof.
  unfold latest_type. rewrite filter_app, filter_cons, filter_nil.
  case_decide as H; [|exfalso; apply H; reflexivity].
  rewrite last_snoc. reflexivity.
Qed.

(** A recording with an explicit quantity is accepted when the total fits. *)
Lemma record_fits led ev l q :
  cumulative led l (event_type ev) + q ≤ quantity l →
  record led ev l (Some q)
  = Ok ({| event := ev; line := l; event_quantity := q |},
        led ++ [{| event := ev; line := l; event_quantity := q |}]).
Proof.
  intros H. unfold record. rewrite bool_decide_eq_false_2 by lia. reflexivity.
Qed.

(** ... and rejected when it overshoots. *)
Lemma record_overshoots led ev l q :
  quantity l < cumulative led l (event_type ev) + q →
  record led ev l (Some q) = Raise InvalidEventQuantity.
Proof.
  intros H. unfold record. rewrite bool_decide_eq_true_2 by lia. reflexivity.
Qed.

(** Whatever is recorded, the only way to fail is [InvalidEventQuantity]. *)
Lemma record_cases led ev l q :
  record led ev l q = Raise InvalidEventQuantity ∨
  ∃ q', record led ev l q
        = Ok ({| event := ev; line := l; event_quantity := q' |},
              led ++ [{| event := ev; line := l; event_quantity := q' |}])
        ∧ cumulative led l (event_type ev) + q' ≤ quantity l
        ∧ q' = match q with
               | Some q => q
               | None => quantity l - cumulative led l (event_type ev)
               end.
Proof.
  unfold record.
  set (q' := match q with Some q0 => q0 | None => _ end).
  case_bool_decide as H; [left; reflexivity|].
  right. exists q'. repeat split; [lia].
Qed.

Lemma within_bounds_nil : within_bounds [].
Proof. intros l t H. rewrite cumulative_nil. exact H. Qed.

Lemma within_bounds_record led ev l q row led' :
  within_bounds led →
  record led ev l q = Ok (row, led') →
  within_bounds led'.
Proof.
  intros Hinv Hrec l0 t0 Hpos.
  destruct (record_cases led ev l q) as [Hr | (q' & Hr & Hfit & _)];
    rewrite Hr in Hrec; [discriminate|].
  injection Hrec as <- <-.
  rewrite cumulative_snoc.
  destruct (matches l0 t0 _) eqn:Hm.
  - apply matches_true in Hm as [Hl Ht]. cbn in Hl, Ht. subst l0 t0.
    cbn [event_quantity]. exact Hfit.
  - specialize (Hinv l0 t0 Hpos). lia.
Qed.

Lemma within_bounds_record_quantities ev quantities :
  ∀ led led',
    within_bounds led →
    record_quantities led ev quantities = Ok led' →
    within_bounds led'.
Proof.
  induction quantities as [|[l q] rest IH]; intros led led' Hinv Hrec.
  - cbn in Hrec. injection Hrec as <-. exact Hinv.
  - cbn [record_quantities] in Hrec.
    destruct (record led ev l q) as [[row led1]|e] eqn:Hr;
      cbn in Hrec; [|discriminate].
    eapply IH; [|exact Hrec].
    eapply within_bounds_record; eauto.
Qed.

Lemma reachable_within_bounds led : reachable led → within_bounds led.
Proof.
  induction 1 as [|led o t quantities led' _ IH Hrec].
  - apply within_bounds_nil.
  - eapply within_bounds_record_quantities; eauto.
Qed.

Lemma record_quantities_raises led ev quantities e :
  record_quantities led ev quantities = Raise e → e = InvalidEventQuantity.
Proof.
  revert led. induction quantities as [|[l q] rest IH]; intros led Hrec.
  - discriminate.
  - cbn [record_quantities] in Hrec.
    destruct (record_cases led ev l q) as [Hr | (q' & Hr & _)];
      rewrite Hr in Hrec; cbn in Hrec.
    + congruence.
    + eauto.
Qed.

(** C2. Recording a quantity that would take a line's cumulative quantity
    for a progress stage above the line's quantity fails with
    [InvalidEventQuantity], for a single line as for a whole event, and no
    ledger built by successful recordings ever holds more than the line's
    quantity for a stage. *)
Theorem overshoot_rejected_and_never_recorded :
  (∀ led ev l q,
     quantity l < cumulative led l (event_type ev) + q →
     record led ev l (Some q) = Raise InvalidEventQuantity) ∧
  (∀ led o t l q,
     quantity l < cumulative led l t + q →
     record_event led o t [(l, Some q)] = Raise InvalidEventQuantity) ∧
  (∀ led o t quantities e,
     record_event led o t quantities = Raise e → e = InvalidEventQuantity) ∧
  (∀ led, reachable led →
     ∀ l t, 0 ≤ quantity l → cumulative led l t ≤ quantity l).
Proof.
  split; [|split; [|split]].
  - intros. by apply record_overshoots.
  - intros led o t l q H. unfold record_event. cbn [record_quantities].
    rewrite record_overshoots by exact H. reflexivity.
  - intros led o t quantities e H. eapply record_quantities_raises, H.
  - intros led H. by apply reachable_within_bounds.
Qed.

Lemma overshoot_rejected_and_never_recorded_witness :
  record_event
    [{| event := {| order_number := "100002"; event_type := order_placed |};
        line := test_line; event_quantity := 3 |}]
    test_order order_placed [(test_line, Some 2)]
  = Raise InvalidEventQuantity
  ∧ cumulative
      [{| event := {| order_number := "100002"; event_type := order_placed |};
          line := test_line; event_quantity := 3 |}]
      test_line order_placed ≤ quantity test_line.
Proof.
  destruct overshoot_rejected_and_never_recorded as (_ & Hev & _ & Hinv).
  split.
  - apply Hev. vm_compute. reflexivity.
  - apply Hinv; [|vm_compute; discriminate].
    eapply (reachable_record [] test_order order_placed
                             [(test_line, Some 3)]).
    + apply reachable_nil.
    + reflexivity.
Defined.

(** C3. On a line of quantity 4 the status is empty before any event, is
    "Order placed (3/4 items)" after an "Order placed" event of quantity 3
    and "Order placed" after a further quantity of 1 for the same type and
    line. In general a line with no event has the empty status, a line fully
    covered at the stage it has reached reports the type's name, and a
    partially covered one reports "<type> (<done>/<total> items)". *)
Theorem shipping_status_of_line :
  (∀ l o, quantity l = 4 →
     let ev := {| order_number := o; event_type := order_placed |} in
     let row3 := {| event := ev; line := l; event_quantity := 3 |} in
     let row1 := {| event := ev; line := l; event_quantity := 1 |} in
     shipping_status [] l = "" ∧
     record [] ev l (Some 3) = Ok (row3, [row3]) ∧
     shipping_status [row3] l = "Order placed (3/4 items)" ∧
     record [row3] ev l (Some 1) = Ok (row1, [row3; row1]) ∧
     shipping_status [row3; row1] l = "Order placed") ∧
  (∀ led l, latest_type led l = None → shipping_status led l = "") ∧
  (∀ led l t,
     latest_type led l = Some t →
     cumulative led l t = quantity l →
     shipping_status led l = name t) ∧
  (∀ led l t,
     latest_type led l = Some t →
     cumulative led l t ≠ quantity l →
     shipping_status led l
     = name t +:+ " (" +:+ pretty (cumulative led l t) +:+ "/"
              +:+ pretty (quantity l) +:+ " items)").
Proof.
  split; [|split; [|split]].
  - intros l o Hq ev row3 row1.
    assert (H3 : cumulative [row3] l order_placed = 3).
    { apply (cumulative_snoc_same [] ev l 3). }
    assert (H4 : cumulative [row3; row1] l order_placed = 4).
    { change (cumulative ([row3] ++ [row1]) l (event_type ev) = 4).
      subst row1. rewrite cumulative_snoc_same. fold row3.
      change (event_type ev) with order_placed. rewrite H3. reflexivity. }
    split; [reflexivity|]. split.
    { apply (record_fits [] ev l 3). rewrite cumulative_nil, Hq. lia. }
    split.
    { unfold shipping_status.
      rewrite (latest_type_snoc [] ev l 3 : latest_type [row3] l = _).
      cbn [event_type ev]. change (event_type ev) with order_placed.
      rewrite H3, Hq. reflexivity. }
    split.
    { apply (record_fits [row3] ev l 1).
      change (event_type ev) with order_placed. rewrite H3, Hq. lia. }
    unfold shipping_status.
    rewrite (latest_type_snoc [row3] ev l 1 : latest_type [row3; row1] l = _).
    change (event_type ev) with order_placed.
    rewrite H4, Hq. reflexivity.
  - intros led l H. unfold shipping_status. rewrite H. reflexivity.
  - intros led l t Hl Hc. unfold shipping_status. rewrite Hl. cbn zeta.
    rewrite bool_decide_eq_true_2 by exact Hc. reflexivity.
  - intros led l t Hl Hc. unfold shipping_status. rewrite Hl. cbn zeta.
    rewrite bool_decide_eq_false_2 by exact Hc. reflexivity.
Qed.

Lemma shipping_status_of_line_witness :
  shipping_status
    [{| event := {| order_number := "100002"; event_type := order_placed |};
        line := test_line; event_quantity := 3 |}] test_line
  = "Order placed (3/4 items)"
  ∧ shipping_status
      [{| event := {| order_number := "100002"; event_type := order_placed |};
          line := test_line; event_quantity := 4 |};
       {| event := {| order_number := "100002"; event_type := dispatched |};
          line := test_line; event_quantity := 4 |}] test_line
    = "Dispatched"
  ∧ shipping_status
      [{| event := {| order_number := "100002"; event_type := dispatched |};
          line := test_line; event_quantity := 2 |}] test_line
    = "Dispatched (2/4 items)".
Proof.
  destruct shipping_status_of_line as (Hscn & _ & Hfull & Hpart).
  split; [|split].
  - exact (proj1 (proj2 (proj2 (Hscn test_line "100002" eq_refl)))).
  - apply (Hfull _ test_line dispatched); reflexivity.
  - rewrite (Hpart _ test_line dispatched);
      [reflexivity | reflexivity | vm_compute; discriminate].
Defined.

(** C4. [has_shipping_event_occurred(order, type)] is true exactly when the
    cumulative quantity recorded for the type equals the full quantity on
    every line of the order; a line that is short of its quantity makes it
    false, for the order and for the line itself. *)
Theorem has_shipping_event_occurred_iff led (o : Order) t :
  (has_shipping_event_occurred led o t = true ↔
   ∀ l, l ∈ lines o → cumulative led l t = quantity l) ∧
  (∀ l, l ∈ lines o → cumulative led l t < quantity l →
        has_shipping_event_occurred led o t = false ∧
        line_has_shipping_event_occurred led l t = false).
Proof.
  assert (Hiff : has_shipping_event_occurred led o t = true ↔
                 ∀ l, l ∈ lines o → cumulative led l t = quantity l).
  { unfold has_shipping_event_occurred, line_has_shipping_event_occurred.
    rewrite forallb_forall. split.
    - intros H l Hl. eapply bool_decide_eq_true_1, H, list_elem_of_In, Hl.
    - intros H l Hl. apply bool_decide_eq_true_2, H, list_elem_of_In, Hl. }
  split; [exact Hiff|].
  intros l Hl Hlt. split.
  - apply not_true_is_false. intros Htrue.
    pose proof (proj1 Hiff Htrue l Hl). lia.
  - unfold line_has_shipping_event_occurred.
    apply bool_decide_eq_false_2. lia.
Qed.

Lemma has_shipping_event_occurred_iff_witness :
  has_shipping_event_occurred
    [{| event := {| order_number := "100002"; event_type := order_placed |};
        line := test_line; event_quantity := 3 |}]
    test_order order_placed = false
  ∧ has_shipping_event_occurred
      [{| event := {| order_number := "100002"; event_type := order_placed |};
          line := test_line; event_quantity := 4 |}]
      test_order order_placed = true.
Proof.
  split.
  - apply (proj2 (has_shipping_event_occurred_iff _ test_order order_placed)
                 test_line).
    + apply list_elem_of_In. left. reflexivity.
    + vm_compute. reflexivity.
  - apply (proj1 (has_shipping_event_occurred_iff _ test_order order_placed)).
    intros l Hl. apply list_elem_of_In in Hl.
    destruct Hl as [<- | []]. reflexivity.
Defined.

Section AnyRecorder.

(** Whatever code records the quantities: if it enforces the rule that a
    later event must not carry less than an earlier event of the same line
    and stage, it rejects the second step of the specification's own
    scenario, quantity 1 after quantity 3 on a line of 4. *)
Variable recorder :
  ledger → ShippingEvent → Line → option Z →
  result (ShippingEventQuantity * ledger).

Hypothesis recorder_monotonic :
  ∀ led ev l q r,
    r ∈ led → line r = l → event_type (event r) = event_type ev →
    q < event_quantity r →
    ∃ e, recorder led ev l (Some q) = Raise e.

Remark monotonic_rule_rejects_scenario ev :
  ∃ e, recorder [{| event := ev; line := test_line; event_quantity := 3 |}]
                ev test_line (Some 1) = Raise e.
Proof.
  eapply recorder_monotonic; [left | reflexivity | reflexivity | reflexivity].
Qed.

End AnyRecorder.

(** C9. A recording with the quantity omitted records the line's full
    remaining quantity, its quantity less what earlier events of the stage
    cover; it is always accepted and leaves the line fully covered for the
    stage. On a line without earlier events that is the line's quantity. *)
Theorem omitted_quantity_defaults_to_remaining led ev l :
  let remaining := quantity l - cumulative led l (event_type ev) in
  let row := {| event := ev; line := l; event_quantity := remaining |} in
  record led ev l None = Ok (row, led ++ [row]) ∧
  cumulative (led ++ [row]) l (event_type ev) = quantity l ∧
  ∃ row0, record [] ev l None = Ok (row0, [row0]) ∧
          event_quantity row0 = quantity l.
Proof.
  intros remaining row. split; [|split].
  - unfold record. rewrite bool_decide_eq_false_2 by lia. reflexivity.
  - subst row. rewrite cumulative_snoc_same. subst remaining. lia.
  - eexists. unfold record. rewrite cumulative_nil.
    rewrite bool_decide_eq_false_2 by lia. split; [reflexivity|].
    cbn. lia.
Qed.

End LedgerFacts.

Section CheckoutFacts.
Import Checkout.

Implicit Types (self : OrderPlacementMixin) (db : DB) (u : User).

(** The basket [get_shipping_address] works on. *)
Lemma get_shipping_address_no_shipping self db b :
  is_shipping_required
    (match b with Some b => b | None => basket (request self) end) = false →
  get_shipping_address self db b = Ok None.
Proof. intros H. unfold get_shipping_address. rewrite H. reflexivity. Qed.

(** C6, as the specification states it, fails on the code: with neither
    address fields nor an address id in the session the error raised is not
    a [MissingShippingAddress]. *)
Lemma no_address_data_is_not_MissingShippingAddress :
  ¬ raises
      (get_shipping_address
         {| request := {| user := {| id := 1; is_authenticated := true |};
                          basket := {| is_shipping_required := true |} |};
            checkout_session := {| new_shipping_address_fields := None;
                                   user_address_id := None |} |}
         {| shipping_addresses := ∅; user_addresses := ∅ |}
         None)
      "MissingShippingAddress".
Proof. intros (e & He & Hcls). injection He as <-. discriminate Hcls. Qed.

(** C6 (amended). When the basket requires shipping and the session holds
    neither address fields nor an address id, resolving the shipping address
    fails with [UnableToPlaceOrder("No shipping address data found")], in
    [get_shipping_address] and so in [create_shipping_address]. *)
Theorem no_address_data_unable_to_place_order
    (generate_hash : Fields → string) self db b :
  is_shipping_required
    (match b with Some b => b | None => basket (request self) end) = true →
  truthy_fields (new_shipping_address_fields (checkout_session self)) = false →
  truthy_id (user_address_id (checkout_session self)) = false →
  get_shipping_address self db b
  = Raise (UnableToPlaceOrder "No shipping address data found") ∧
  create_shipping_address generate_hash self db b
  = Raise (UnableToPlaceOrder "No shipping address data found") ∧
  raises (get_shipping_address self db b) "UnableToPlaceOrder".
Proof.
  intros Hreq Hdata Hid.
  assert (Hget : get_shipping_address self db b
                 = Raise (UnableToPlaceOrder "No shipping address data found")).
  { unfold get_shipping_address. rewrite Hreq, Hdata, Hid. reflexivity. }
  split; [exact Hget|]. split.
  - unfold create_shipping_address. rewrite Hget. reflexivity.
  - rewrite Hget. eexists. split; reflexivity.
Qed.

Lemma no_address_data_unable_to_place_order_witness :
  get_shipping_address
    {| request := {| user := {| id := 1; is_authenticated := true |};
                     basket := {| is_shipping_required := true |} |};
       checkout_session := {| new_shipping_address_fields := Some ∅;
                              user_address_id := None |} |}
    {| shipping_addresses := ∅; user_addresses := ∅ |}
    None
  = Raise (UnableToPlaceOrder "No shipping address data found").
Proof.
  apply (no_address_data_unable_to_place_order sample_hash); reflexivity.
Defined.

Lemma addresses_with_hash_nil db u h :
  addresses_with_hash db u h = [] →
  filter (λ kv : Z * UserAddress, user_id kv.2 = id u ∧ hash kv.2 = h)
         (user_addresses db) = ∅.
Proof.
  unfold addresses_with_hash. intros H.
  apply fmap_nil_inv in H. by apply map_to_list_empty_iff.
Qed.

(** After an entry of the user with hash [h] is stored under [k], in an
    address book that held none, it is the one entry found under [h]. *)
Lemma addresses_with_hash_insert db (sas : gmap Z ShippingAddress) u h k
    (e : UserAddress) :
  addresses_with_hash db u h = [] →
  user_id e = id u → hash e = h →
  addresses_with_hash
    {| shipping_addresses := sas;
       user_addresses := <[k := e]> (user_addresses db) |} u h = [e].
Proof.
  intros Hnil Hu Hh. apply addresses_with_hash_nil in Hnil.
  unfold addresses_with_hash. cbn [user_addresses].
  rewrite map_filter_insert_True by (split; assumption).
  rewrite Hnil, insert_empty, map_to_list_singleton. reflexivity.
Qed.

(** [update_address_book] when the user has no entry with the hash of the
    shipping address: a new entry with counter 1 is stored. *)
Lemma update_address_book_fresh generate_hash u (sa : ShippingAddress) db :
  addresses_with_hash db u (generate_hash (shipping_fields sa)) = [] →
  update_address_book generate_hash u sa db
  = Ok {| shipping_addresses := shipping_addresses db;
          user_addresses :=
            <[fresh (dom (user_addresses db)) :=
                {| pk := Some (fresh (dom (user_addresses db)));
                   user_id := id u; fields := shipping_fields sa;
                   hash := generate_hash (shipping_fields sa);
                   num_orders := 1 |}]> (user_addresses db) |}.
Proof.
  intros H. unfold update_address_book. rewrite H. reflexivity.
Qed.

(** [update_address_book] when the user has exactly one entry with the hash
    of the shipping address: its counter goes up by one. *)
Lemma update_address_book_found generate_hash u (sa : ShippingAddress) db
    (e : UserAddress) k :
  addresses_with_hash db u (generate_hash (shipping_fields sa)) = [e] →
  pk e = Some k →
  update_address_book generate_hash u sa db
  = Ok {| shipping_addresses := shipping_addresses db;
          user_addresses :=
            <[k := {| pk := Some k; user_id := user_id e;
                      fields := fields e;
                      hash := generate_hash (fields e);
                      num_orders := num_orders e + 1 |}]>
              (user_addresses db) |}.
Proof.
  intros H Hk. unfold update_address_book. rewrite H. cbn.
  unfold save_user_address. cbn. rewrite Hk. reflexivity.
Qed.

(** C7, as the specification states it, fails on the code: when the entry
    referenced by the session no longer exists, the error raised is not an
    [AddressNotFound]. *)
Lemma missing_entry_is_not_AddressNotFound :
  ¬ raises
      (get_shipping_address
         {| request := {| user := {| id := 1; is_authenticated := true |};
                          basket := {| is_shipping_required := true |} |};
            checkout_session := {| new_shipping_address_fields := None;
                                   user_address_id := Some 7 |} |}
         {| shipping_addresses := ∅; user_addresses := ∅ |}
         None)
      "AddressNotFound".
Proof. intros (e & He & Hcls). injection He as <-. discriminate Hcls. Qed.

(** C7 (amended). Resolving from a saved address-book reference id: when
    the referenced entry no longer exists the resolution fails with
    [UnableToPlaceOrder]; when it exists [get_shipping_address] converts it
    into an unsaved shipping address with the entry's fields. Placing the
    address with [create_shipping_address] raises the reuse counter through
    the address book of the requesting user: for an authenticated user
    whose one entry under the address's content hash is the referenced
    entry, that entry's counter goes up by one; for a user who is not
    authenticated the address book is left as it is. *)
Theorem address_book_reference_resolution
    (generate_hash : Fields → string) self db b addr_id :
  is_shipping_required
    (match b with Some b => b | None => basket (request self) end) = true →
  truthy_fields (new_shipping_address_fields (checkout_session self)) = false →
  user_address_id (checkout_session self) = Some addr_id →
  addr_id ≠ 0 →
  (user_addresses db !! addr_id = None →
   get_shipping_address self db b
   = Raise (UnableToPlaceOrder
              ("The selected shipping address no longer exists. "
               +:+ "Please select or enter another")) ∧
   raises (create_shipping_address generate_hash self db b)
          "UnableToPlaceOrder") ∧
  (∀ entry : UserAddress,
     user_addresses db !! addr_id = Some entry →
     get_shipping_address self db b
     = Ok (Some {| shipping_pk := None; shipping_fields := fields entry |}) ∧
     (is_authenticated (user (request self)) = true →
      pk entry = Some addr_id →
      addresses_with_hash db (user (request self))
                          (generate_hash (fields entry)) = [entry] →
      ∃ sa db',
        create_shipping_address generate_hash self db b = Ok (Some sa, db') ∧
        shipping_fields sa = fields entry ∧
        user_addresses db'
        = <[addr_id := {| pk := Some addr_id; user_id := user_id entry;
                          fields := fields entry;
                          hash := generate_hash (fields entry);
                          num_orders := num_orders entry + 1 |}]>
            (user_addresses db)) ∧
     (is_authenticated (user (request self)) = false →
      ∃ sa db',
        create_shipping_address generate_hash self db b = Ok (Some sa, db') ∧
        shipping_fields sa = fields entry ∧
        user_addresses db' = user_addresses db)).
Proof.
  intros Hreq Hdata Hid Hnz.
  assert (Htid : truthy_id (Some addr_id) = true).
  { cbn. apply negb_true_iff, Z.eqb_neq, Hnz. }
  split.
  - intros Hnone.
    assert (Hget : get_shipping_address self db b
                   = Raise (UnableToPlaceOrder
                        ("The selected shipping address no longer exists. "
                         +:+ "Please select or enter another"))).
    { unfold get_shipping_address, get_user_address.
      rewrite Hreq, Hdata, Hid, Htid. cbn [negb default from_option Datatypes.id].
      rewrite Hnone. reflexivity. }
    split; [exact Hget|].
    unfold create_shipping_address. rewrite Hget.
    eexists. split; reflexivity.
  - intros entry Hsome.
    assert (Hget : get_shipping_address self db b
                   = Ok (Some {| shipping_pk := None;
                                 shipping_fields := fields entry |})).
    { unfold get_shipping_address, get_user_address.
      rewrite Hreq, Hdata, Hid, Htid. cbn [negb default from_option Datatypes.id].
      rewrite Hsome. reflexivity. }
    split; [exact Hget|]. split.
    + intros Hauth Hpk Hone.
      unfold create_shipping_address. rewrite Hget. cbn [mbind result_bind].
      rewrite Hauth.
      erewrite update_address_book_found; [| exact Hone | exact Hpk].
      eexists _, _. split; [reflexivity|]. split; reflexivity.
    + intros Hanon.
      unfold create_shipping_address. rewrite Hget. cbn [mbind result_bind].
      rewrite Hanon. eexists _, _. split; [reflexivity|]. split; reflexivity.
Qed.

Lemma address_book_reference_resolution_witness :
  ∃ sa db',
    create_shipping_address sample_hash sample_view_address_id sample_db None
    = Ok (Some sa, db') ∧
    shipping_fields sa = sample_fields ∧
    user_addresses db'
    = <[7 := {| pk := Some 7; user_id := 1; fields := sample_fields;
                hash := sample_hash sample_fields; num_orders := 3 + 1 |}]>
        (user_addresses sample_db).
Proof.
  destruct (address_book_reference_resolution
              sample_hash sample_view_address_id sample_db None 7)
    as [_ Hsome]; [reflexivity | reflexivity | reflexivity | lia |].
  destruct (Hsome sample_entry) as (_ & Hauth & _);
    [vm_compute; reflexivity|].
  apply Hauth; [reflexivity | reflexivity | vm_compute; reflexivity].
Defined.

(** C8. For an authenticated user whose address book holds no entry under
    the content hash of an address, resolving that address twice (the
    second time through fields with the same content hash) stores one
    entry for the user under that hash, with counter 1 after the first
    resolution and 2 after the second. *)
Theorem address_book_deduplicated
    (generate_hash : Fields → string) self self' db b b' (f f' : Fields) :
  is_authenticated (user (request self)) = true →
  user (request self') = user (request self) →
  is_shipping_required
    (match b with Some b => b | None => basket (request self) end) = true →
  is_shipping_required
    (match b' with Some b => b | None => basket (request self') end) = true →
  new_shipping_address_fields (checkout_session self) = Some f →
  new_shipping_address_fields (checkout_session self') = Some f' →
  f ≠ ∅ → f' ≠ ∅ →
  generate_hash f' = generate_hash f →
  addresses_with_hash db (user (request self)) (generate_hash f) = [] →
  ∃ sa db1 sa' db2 entry1 entry2,
    create_shipping_address generate_hash self db b = Ok (Some sa, db1) ∧
    addresses_with_hash db1 (user (request self)) (generate_hash f)
    = [entry1] ∧
    num_orders entry1 = 1 ∧
    create_shipping_address generate_hash self' db1 b' = Ok (Some sa', db2) ∧
    addresses_with_hash db2 (user (request self)) (generate_hash f)
    = [entry2] ∧
    num_orders entry2 = 2 ∧
    fields entry2 = f ∧
    user_id entry2 = id (user (request self)).
Proof.
  intros Hauth Huser Hreq Hreq' Hf Hf' Hne Hne' Hhash Hnil.
  set (u := user (request self)) in *.
  set (k := fresh (dom (user_addresses db))).
  set (e1 := {| pk := Some k; user_id := id u; fields := f;
                hash := generate_hash f; num_orders := 1 |}).
  assert (Hget : ∀ s bk g, 
             is_shipping_required
               (match bk with Some b => b | None => basket (request s) end)
             = true →
             new_shipping_address_fields (checkout_session s) = Some g →
             g ≠ ∅ → ∀ d,
             get_shipping_address s d bk = Ok (Some (new_ShippingAddress g))).
  { intros s bk g Hr Hg Hgne d. unfold get_shipping_address.
    rewrite Hr, Hg. cbn [negb truthy_fields].
    rewrite bool_decide_eq_false_2 by exact Hgne. reflexivity. }
  pose (sdb := save_shipping_address (new_ShippingAddress f) db).
  pose (db1 := {| shipping_addresses := shipping_addresses sdb.2;
                  user_addresses := <[k := e1]> (user_addresses db) |}).
  assert (Hc1 : create_shipping_address generate_hash self db b
                = Ok (Some sdb.1, db1)).
  { unfold create_shipping_address.
    rewrite (Hget self b f Hreq Hf Hne). cbn [mbind result_bind].
    fold u. rewrite Hauth. fold sdb.
    rewrite update_address_book_fresh by exact Hnil. reflexivity. }
  assert (H1 : addresses_with_hash db1 u (generate_hash f) = [e1]).
  { apply addresses_with_hash_insert; [exact Hnil | reflexivity ..]. }
  pose (sdb' := save_shipping_address (new_ShippingAddress f') db1).
  pose (e2 := {| pk := Some k; user_id := id u; fields := f;
                 hash := generate_hash f; num_orders := 2 |}).
  pose (db2 := {| shipping_addresses := shipping_addresses sdb'.2;
                  user_addresses := <[k := e2]> (user_addresses db1) |}).
  assert (Hc2 : create_shipping_address generate_hash self' db1 b'
                = Ok (Some sdb'.1, db2)).
  { unfold create_shipping_address.
    rewrite (Hget self' b' f' Hreq' Hf' Hne'). cbn [mbind result_bind].
    rewrite Huser. fold u. rewrite Hauth. fold sdb'.
    erewrite (update_address_book_found generate_hash u sdb'.1 sdb'.2 e1 k);
      [reflexivity | | reflexivity].
    change (shipping_fields sdb'.1) with f'. rewrite Hhash.
    exact H1. }
  assert (H2 : addresses_with_hash db2 u (generate_hash f) = [e2]).
  { unfold db2, db1. cbn [user_addresses]. rewrite insert_insert_eq.
    apply addresses_with_hash_insert; [exact Hnil | reflexivity ..]. }
  exists sdb.1, db1, sdb'.1, db2, e1, e2.
  repeat split; assumption || reflexivity.
Qed.

Lemma address_book_deduplicated_witness :
  ∃ sa db1 sa' db2 entry1 entry2,
    create_shipping_address sample_hash sample_view_new_address empty_db None
    = Ok (Some sa, db1) ∧
    addresses_with_hash db1 (user sample_request) (sample_hash sample_fields)
    = [entry1] ∧
    num_orders entry1 = 1 ∧
    create_shipping_address sample_hash sample_view_new_address db1 None
    = Ok (Some sa', db2) ∧
    addresses_with_hash db2 (user sample_request) (sample_hash sample_fields)
    = [entry2] ∧
    num_orders entry2 = 2 ∧
    fields entry2 = sample_fields ∧
    user_id entry2 = 1.
Proof.
  apply (address_book_deduplicated
           sample_hash sample_view_new_address sample_view_new_address
           empty_db None None sample_fields sample_fields);
    try reflexivity;
    apply (bool_decide_unpack (sample_fields ≠ ∅)); vm_compute; exact I.
Defined.

End CheckoutFacts.

Section BulkEditFacts.
Import BulkEdit.

Context {Obj Response : Type}.
Implicit Types (self : BulkEditMixin Obj Response) (request : HttpRequest).

(** The guard lets an action through exactly when a whitelist is declared
    and the action is on it. *)
Lemma action_refused_false self action :
  action_refused self action = false ↔
  ∃ acts, actions self = Some acts ∧ action ∈ acts.
Proof.
  unfold action_refused. destruct (actions self) as [[|a acts]|].
  - split; [discriminate|]. intros (acts & [= <-] & H). by inversion H.
  - rewrite negb_false_iff, bool_decide_eq_true. split.
    + intros H. eauto.
    + intros (acts' & [= <-] & H). exact H.
  - split; [discriminate|]. intros (acts & [=] & _).
Qed.

Lemma map_int_nil_inv (ids : list string) :
  map_int ids = Ok [] → ids = [].
Proof.
  destruct ids as [|s rest]; [reflexivity|]. cbn [map_int].
  destruct (int s); cbn; [|discriminate].
  destruct (map_int rest); cbn; discriminate.
Qed.

(** C10. [post] calls a method of the view only when the lower-cased
    [action] parameter of the request is on the view's [actions] whitelist
    and at least one object id was selected, and the method called is the
    one of that name; when no whitelist is declared or the action is not on
    it, nothing is called and the answer is the "Invalid action" error
    followed by a redirect to the error URL. *)
Theorem post_dispatches_whitelisted_actions_only self request :
  let action := lower (POST_get request (action_param self) "") in
  let selected :=
    POST_getlist request
      ("selected_" +:+ str (get_checkbox_object_name self)) in
  (∀ a objects response,
     post self request = Ok (Handled a objects response) →
     a = action ∧
     (∃ acts, actions self = Some acts ∧ action ∈ acts) ∧
     selected ≠ [] ∧
     ∃ method, methods self action = Some method ∧
               response = method request objects) ∧
  ((actions self = None ∨ ∃ acts, actions self = Some acts ∧ action ∉ acts) →
   post self request
   = Ok (ErrorRedirect "Invalid action" (get_error_url request))).
Proof.
  intros action selected. split.
  - intros a objects response Hpost. unfold post in Hpost.
    fold action selected in Hpost.
    destruct (action_refused self action) eqn:Hguard; [discriminate|].
    apply action_refused_false in Hguard.
    destruct (map_int selected) as [ids|e] eqn:Hids; cbn in Hpost;
      [|discriminate].
    destruct ids as [|i ids]; [discriminate|].
    destruct (get_objects self (i :: ids)) as [objs|e] eqn:Hobjs;
      cbn in Hpost; [|discriminate].
    destruct (methods self action) as [method|] eqn:Hmethod; [|discriminate].
    injection Hpost as <- <- <-.
    split; [reflexivity|]. split; [exact Hguard|]. split.
    + intros Hnil. rewrite Hnil in Hids. discriminate.
    + eauto.
  - intros Hout. unfold post. fold action.
    destruct (action_refused self action) eqn:Hguard; [reflexivity|].
    apply action_refused_false in Hguard as (acts & Hacts & Hin).
    destruct Hout as [Hnone | (acts' & Hacts' & Hnotin)]; congruence.
Qed.

End BulkEditFacts.

Lemma post_dispatches_whitelisted_actions_only_witness :
  (∃ method,
     BulkEdit.methods BulkEdit.sample_view "delete" = Some method ∧
     "deleted Gadget, Widget"
     = method BulkEdit.sample_delete_request ["Gadget"; "Widget"]) ∧
  BulkEdit.post BulkEdit.sample_view BulkEdit.sample_forged_request
  = Ok (BulkEdit.ErrorRedirect "Invalid action" ".").
Proof.
  split.
  - apply (proj1 (post_dispatches_whitelisted_actions_only
                    BulkEdit.sample_view BulkEdit.sample_delete_request)
                 "delete" ["Gadget"; "Widget"] "deleted Gadget, Widget").
    vm_compute. reflexivity.
  - apply (proj2 (post_dispatches_whitelisted_actions_only
                    BulkEdit.sample_view BulkEdit.sample_forged_request)).
    right. exists ["delete"]. split; [reflexivity|].
    apply (bool_decide_unpack (_ ∉ _)). vm_compute. exact I.
Defined.

(** * Further properties of the shipping charge *)

Section ShippingMoreFacts.
Import Shipping.

Lemma basket_charge_bound self basket :
  basket_charge_incl_tax (set_basket self basket)
  = Ok (price_per_order self
        + items_charge (price_per_item self) (lines basket)).
Proof.
  unfold basket_charge_incl_tax, set_basket.
  cbn [_basket price_per_item price_per_order].
  rewrite charge_loop_sum. reflexivity.
Qed.

Lemma items_charge_app ppi (l1 l2 : list BasketLine) :
  items_charge ppi (l1 ++ l2) = items_charge ppi l1 + items_charge ppi l2.
Proof.
  induction l1 as [|x l1 IH]; [reflexivity|].
  change ((x :: l1) ++ l2) with (x :: (l1 ++ l2)).
  rewrite !items_charge_cons, IH. lia.
Qed.

(** X1. The charge does not depend on the order in which the basket yields
    its lines. *)
Theorem basket_charge_order_irrelevant self (b1 b2 : Basket) :
  lines b1 ≡ₚ lines b2 →
  basket_charge_incl_tax (set_basket self b1)
  = basket_charge_incl_tax (set_basket self b2).
Proof.
  intros Hperm. rewrite !basket_charge_bound. do 2 f_equal.
  induction Hperm as [|x l1 l2 _ IH|x y l|l1 l2 l3 _ IH1 _ IH2].
  - reflexivity.
  - rewrite !items_charge_cons, IH. reflexivity.
  - rewrite !items_charge_cons. lia.
  - congruence.
Qed.

Lemma basket_charge_order_irrelevant_witness :
  basket_charge_incl_tax
    (set_basket
       {| code := "standard"; name := "Standard"; description := "";
          price_currency := "GBP"; price_per_order := 500;
          price_per_item := 150; _basket := None |}
       {| lines := [ {| quantity := 1 |}; {| quantity := 3 |} ] |})
  = basket_charge_incl_tax
      (set_basket
         {| code := "standard"; name := "Standard"; description := "";
            price_currency := "GBP"; price_per_order := 500;
            price_per_item := 150; _basket := None |}
         {| lines := [ {| quantity := 3 |}; {| quantity := 1 |} ] |}).
Proof.
  apply basket_charge_order_irrelevant. cbn [lines]. apply perm_swap.
Defined.

(** X2. The per-order price is charged once however the lines are split:
    the charge for two groups of lines in one basket is the charge for the
    first group plus the per-item charges of the second, so two baskets
    charged apart cost one per-order price more than their union. *)
Theorem basket_charge_of_joined_baskets self (l1 l2 : list BasketLine) c1 c2 :
  basket_charge_incl_tax (set_basket self {| lines := l1 |}) = Ok c1 →
  basket_charge_incl_tax (set_basket self {| lines := l2 |}) = Ok c2 →
  basket_charge_incl_tax (set_basket self {| lines := l1 ++ l2 |})
  = Ok (c1 + c2 - price_per_order self).
Proof.
  rewrite !basket_charge_bound. cbn [lines].
  intros [= <-] [= <-]. rewrite items_charge_app. f_equal. lia.
Qed.

Lemma basket_charge_of_joined_baskets_witness :
  basket_charge_incl_tax
    (set_basket
       {| code := "standard"; name := "Standard"; description := "";
          price_currency := "GBP"; price_per_order := 500;
          price_per_item := 150; _basket := None |}
       {| lines := [ {| quantity := 1 |} ] ++ [ {| quantity := 3 |} ] |})
  = Ok (650 + 950 - 500).
Proof.
  apply (basket_charge_of_joined_baskets
           {| code := "standard"; name := "Standard"; description := "";
              price_currency := "GBP"; price_per_order := 500;
              price_per_item := 150; _basket := None |}
           [ {| quantity := 1 |} ] [ {| quantity := 3 |} ]); reflexivity.
Defined.

(** X3. With a per-item price that is not negative and lines whose
    quantities are not negative, the charge is at least the per-order
    price, and it is exactly the per-order price for an empty basket. *)
Theorem basket_charge_at_least_per_order self basket :
  0 ≤ price_per_item self →
  Forall (λ line, 0 ≤ quantity line) (lines basket) →
  (∃ c, basket_charge_incl_tax (set_basket self basket) = Ok c ∧
        price_per_order self ≤ c) ∧
  basket_charge_incl_tax (set_basket self {| lines := [] |})
  = Ok (price_per_order self).
Proof.
  intros Hppi Hq. split.
  - rewrite basket_charge_bound. eexists. split; [reflexivity|].
    induction Hq as [|x l Hx _ IH].
    + cbn. lia.
    + rewrite items_charge_cons. nia.
  - rewrite basket_charge_bound. cbn. f_equal. lia.
Qed.

Lemma basket_charge_at_least_per_order_witness :
  ∃ c,
    basket_charge_incl_tax
      (set_basket
         {| code := "standard"; name := "Standard"; description := "";
            price_currency := "GBP"; price_per_order := 500;
            price_per_item := 150; _basket := None |}
         {| lines := [ {| quantity := 0 |}; {| quantity := 2 |} ] |}) = Ok c ∧
    500 ≤ c.
Proof.
  apply (basket_charge_at_least_per_order
           {| code := "standard"; name := "Standard"; description := "";
              price_currency := "GBP"; price_per_order := 500;
              price_per_item := 150; _basket := None |}
           {| lines := [ {| quantity := 0 |}; {| quantity := 2 |} ] |}).
  - cbn. lia.
  - cbn [lines]. repeat constructor; cbn; lia.
Defined.

(** X4. [save] never changes a code that is set, fills an empty one with
    the slug of the name, and saving again changes nothing more. *)
Theorem save_fills_code_once (slugify : string → string) self :
  (code self ≠ "" → save slugify self = self) ∧
  (code self = "" → code (save slugify self) = slugify (name self)) ∧
  save slugify (save slugify self) = save slugify self.
Proof.
  split; [|split].
  - intros H. destruct self. unfold save. cbn in *.
    rewrite bool_decide_eq_false_2 by exact H. reflexivity.
  - intros H. unfold save. cbn. rewrite bool_decide_eq_true_2 by exact H.
    reflexivity.
  - destruct self as [c n d pc po pi b]. unfold save. cbn.
    f_equal. repeat case_bool_decide; congruence.
Qed.

Lemma save_fills_code_once_witness :
  code (save (λ n, "standard-delivery")
             {| code := ""; name := "Standard delivery"; description := "";
                price_currency := "GBP"; price_per_order := 500;
                price_per_item := 150; _basket := None |})
  = "standard-delivery".
Proof.
  exact (proj1 (proj2 (save_fills_code_once
                         (λ n, "standard-delivery")
                         {| code := ""; name := "Standard delivery";
                            description := ""; price_currency := "GBP";
                            price_per_order := 500; price_per_item := 150;
                            _basket := None |})) eq_refl).
Defined.

End ShippingMoreFacts.

(** * Further properties of the views of [oscar/views/generic.py] *)

Section BulkEditMoreFacts.
Import BulkEdit.

Context {Obj Response : Type}.
Implicit Types (self : BulkEditMixin Obj Response) (request : HttpRequest).

Lemma lower_ascii_idempotent c : lower_ascii (lower_ascii c) = lower_ascii c.
Proof. destruct c as [[] [] [] [] [] [] [] []]; reflexivity. Qed.

Lemma lower_idempotent s : lower (lower s) = lower s.
Proof.
  induction s as [|c s IH]; [reflexivity|].
  cbn [lower]. rewrite lower_ascii_idempotent, IH. reflexivity.
Qed.

Lemma get_objects_ok self ids objs :
  get_objects self ids = Ok objs ↔
  Forall2 (λ i o, model_objects self !! i = Some o) ids objs.
Proof.
  revert objs. induction ids as [|i ids IH]; intros objs; cbn [get_objects].
  - split.
    + intros [= <-]. constructor.
    + intros H. inversion H. reflexivity.
  - destruct (model_objects self !! i) as [o|] eqn:Hi.
    + destruct (get_objects self ids) as [os|e] eqn:Hrest; cbn.
      * split.
        -- intros [= <-]. constructor; [exact Hi|]. by apply IH.
        -- intros H. inversion H as [|? o' ? os' Ho Hos]; subst.
           apply IH in Hos. congruence.
      * split; [discriminate|].
        intros H. inversion H as [|? o' ? os' Ho Hos]; subst.
        apply IH in Hos. discriminate.
    + split; [discriminate|].
      intros H. inversion H; subst. congruence.
Qed.

Lemma get_objects_raises self ids e :
  get_objects self ids = Raise e →
  ∃ i, e = KeyError i ∧ i ∈ ids ∧ model_objects self !! i = None.
Proof.
  induction ids as [|i ids IH]; cbn [get_objects]; [discriminate|].
  destruct (model_objects self !! i) as [o|] eqn:Hi.
  - destruct (get_objects self ids) as [os|e'] eqn:Hrest; cbn;
      [discriminate|].
    intros [= <-]. destruct IH as (j & -> & Hj & Hnone); [reflexivity|].
    exists j. split; [reflexivity|]. split; [by right | exact Hnone].
  - intros [= <-]. exists i. split; [reflexivity|]. split; [by left | exact Hi].
Qed.

(** X5. The action a POST dispatches is always in lower case: an entry of
    the whitelist that holds an upper-case letter can never be called. *)
Theorem dispatched_action_is_lower_case self request :
  (∀ a objects response,
     post self request = Ok (Handled a objects response) → lower a = a) ∧
  (∀ entry objects response,
     lower entry ≠ entry →
     post self request ≠ Ok (Handled entry objects response)).
Proof.
  assert (H : ∀ a objects response,
             post self request = Ok (Handled a objects response) →
             lower a = a).
  { intros a objects response. unfold post.
    destruct (action_refused _ _); [discriminate|].
    destruct (map_int _) as [[|i ids]|e]; cbn [mbind result_bind];
      try discriminate.
    destruct (get_objects _ _); cbn [mbind result_bind]; [|discriminate].
    destruct (methods _ _); [|discriminate].
    intros [= <- _ _]. apply lower_idempotent. }
  split; [exact H|].
  intros entry objects response Hne Hpost. apply Hne. eapply H, Hpost.
Qed.

(** X6. [get_objects] answers with the objects of the selected ids in the
    order they were selected, one for each id; it fails exactly when some
    id has no object, with the [KeyError] of such an id. *)
Theorem get_objects_keeps_selection_order self ids :
  (∀ objs, get_objects self ids = Ok objs ↔
           Forall2 (λ i o, model_objects self !! i = Some o) ids objs) ∧
  (∀ e, get_objects self ids = Raise e →
        ∃ i, e = KeyError i ∧ i ∈ ids ∧ model_objects self !! i = None) ∧
  ((∃ i, i ∈ ids ∧ model_objects self !! i = None) →
   ∃ e, get_objects self ids = Raise e).
Proof.
  split; [|split].
  - intros objs. apply get_objects_ok.
  - intros e. apply get_objects_raises.
  - intros (i & Hin & Hnone).
    destruct (get_objects self ids) as [objs|e] eqn:Hget; [|eauto].
    apply get_objects_ok in Hget.
    apply list_elem_of_lookup in Hin as [n Hn].
    destruct (Forall2_lookup_l _ _ _ _ _ Hget Hn) as (o & _ & Ho).
    congruence.
Qed.

(** X8. A whitelisted action posted without any selected id (the checkbox
    key missing or empty) calls nothing: the answer is the redirect to the
    error URL with the message asking to select some objects. *)
Theorem post_without_selection self request acts :
  actions self = Some acts →
  lower (POST_get request (action_param self) "") ∈ acts →
  POST_getlist request ("selected_" +:+ str (get_checkbox_object_name self))
  = [] →
  post self request
  = Ok (ErrorRedirect
          ("You need to select some "
           +:+ str (get_checkbox_object_name self) +:+ "s")
          (get_error_url request)).
Proof.
  intros Hacts Hin Hsel. unfold post.
  replace (action_refused self _) with false.
  - rewrite Hsel. reflexivity.
  - symmetry. unfold action_refused. rewrite Hacts.
    destruct acts as [|a acts]; [by inversion Hin|].
    apply negb_false_iff, bool_decide_eq_true_2, Hin.
Qed.

End BulkEditMoreFacts.

Lemma dispatched_action_is_lower_case_witness :
  BulkEdit.post
    {| BulkEdit.action_param := "action";
       BulkEdit.actions := Some ["Delete"];
       BulkEdit.checkbox_object_name := None;
       BulkEdit.queryset_object_name := Some "Product";
       BulkEdit.model_objects := {[ 3 := "Widget" ]};
       BulkEdit.methods := λ _, Some (λ _ _, "deleted") |}
    BulkEdit.sample_delete_request
  ≠ Ok (BulkEdit.Handled "Delete" ["Widget"] "deleted").
Proof.
  apply (proj2 (dispatched_action_is_lower_case _ _)). discriminate.
Defined.

Lemma get_objects_keeps_selection_order_witness :
  BulkEdit.get_objects BulkEdit.sample_view [5; 3; 5]
  = Ok ["Gadget"; "Widget"; "Gadget"]
  ∧ ∃ e, BulkEdit.get_objects BulkEdit.sample_view [5; 4; 3] = Raise e.
Proof.
  split.
  - apply (proj1 (get_objects_keeps_selection_order
                    BulkEdit.sample_view [5; 3; 5])).
    repeat constructor.
  - apply (proj2 (proj2 (get_objects_keeps_selection_order
                           BulkEdit.sample_view [5; 4; 3]))).
    exists 4. split; [|reflexivity]. right. left.
Defined.

Lemma post_without_selection_witness :
  BulkEdit.post BulkEdit.sample_view
    {| BulkEdit.POST := {[ "action" := ["delete"] ]}; BulkEdit.META := ∅ |}
  = Ok (BulkEdit.ErrorRedirect "You need to select some products" ".").
Proof.
  refine (post_without_selection
            BulkEdit.sample_view
            {| BulkEdit.POST := {[ "action" := ["delete"] ]};
               BulkEdit.META := ∅ |}
            ["delete"] _ _ _).
  - reflexivity.
  - apply (bool_decide_unpack _). vm_compute. exact I.
  - reflexivity.
Defined.

Section PostActionFacts.
Import BulkEdit PostAction.

Context {Obj Response : Type}.
Implicit Types (self : PostActionMixin Obj Response) (request : HttpRequest).

(** X9. [PostActionMixin.post] only ever calls attributes of the view named
    [do_] followed by the lower-cased last [action] value of the request,
    on the object [get_object()] returned; an attribute whose name does not
    start with [do_] is out of reach of a POST. *)
Theorem post_action_calls_do_methods_only self request name response :
  post self request = Ok (Dispatched name response) →
  ∃ values action model method,
    POST request !! "action" = Some values ∧
    last values = Some action ∧
    name = "do_" +:+ lower action ∧
    get_object self = Ok model ∧
    attributes self name = Some method ∧
    response = method model.
Proof.
  unfold post. intros Hpost.
  destruct (POST request !! "action") as [values|] eqn:Hv; [|discriminate].
  destruct (get_object self) as [model|e] eqn:Ho; cbn in Hpost;
    [|discriminate].
  destruct (last values) as [action|] eqn:Hl; [|discriminate].
  destruct (attributes self ("do_" +:+ lower action)) as [method|] eqn:Hm;
    [|discriminate].
  injection Hpost as <- <-.
  exists values, action, model, method.
  repeat split; reflexivity || assumption.
Qed.

(** X10. Without an [action] key the request goes to the [post] of the next
    class, with no message and without [get_object()] being consulted; with
    one, [get_object()] comes first, so its failure is the failure of the
    POST whatever the action is; and an action that names no [do_] method
    goes to the next class after the "Invalid form submission" message. *)
Theorem post_action_forwarding self request :
  (POST request !! "action" = None →
   post self request = Ok (Forwarded None (super_post self request))) ∧
  (∀ e, is_Some (POST request !! "action") →
        get_object self = Raise e →
        post self request = Raise e) ∧
  (∀ values action model,
     POST request !! "action" = Some values →
     last values = Some action →
     get_object self = Ok model →
     attributes self ("do_" +:+ lower action) = None →
     post self request
     = Ok (Forwarded (Some "Invalid form submission")
                     (super_post self request))).
Proof.
  split; [|split].
  - intros H. unfold post. rewrite H. reflexivity.
  - intros e [values H] He. unfold post. rewrite H, He. reflexivity.
  - intros values action model H Hl Hm Ha. unfold post.
    rewrite H, Hm. cbn. rewrite Hl, Ha. reflexivity.
Qed.

End PostActionFacts.

Lemma post_action_calls_do_methods_only_witness :
  ∃ values action model method,
    BulkEdit.POST {| BulkEdit.POST := {[ "action" := ["Cancel"] ]};
                     BulkEdit.META := ∅ |} !! "action" = Some values ∧
    last values = Some action ∧
    "do_cancel" = "do_" +:+ BulkEdit.lower action ∧
    PostAction.get_object PostAction.sample_detail_view = Ok model ∧
    PostAction.attributes PostAction.sample_detail_view "do_cancel"
    = Some method ∧
    "cancelled order 7" = method model.
Proof.
  apply (post_action_calls_do_methods_only
           PostAction.sample_detail_view
           {| BulkEdit.POST := {[ "action" := ["Cancel"] ]};
              BulkEdit.META := ∅ |}).
  vm_compute. reflexivity.
Defined.

Lemma post_action_forwarding_witness :
  PostAction.post PostAction.sample_detail_view
    {| BulkEdit.POST := {[ "action" := ["get_object"] ]};
       BulkEdit.META := ∅ |}
  = Ok (PostAction.Forwarded (Some "Invalid form submission") "form").
Proof.
  refine (proj2 (proj2 (post_action_forwarding
                          PostAction.sample_detail_view
                          {| BulkEdit.POST := {[ "action" := ["get_object"] ]};
                             BulkEdit.META := ∅ |}))
                ["get_object"] "get_object" "order 7" _ _ _ _);
    reflexivity.
Defined.

Section PhoneNumberFacts.
Import PhoneNumberForm.

Context {PhoneNumber : Type}.
Variable from_string : string → option string → option PhoneNumber.
Variable is_valid : PhoneNumber → bool.

Implicit Types (self : Form) (phone : PhoneNumber).

(** X11. A number [clean_phone_number] returns either parsed in
    international format, and then its validity was not looked at, or
    failed to, parsed with the region of a country and is valid. The empty
    answer is given for the empty values and for nothing else. *)
Theorem returned_phone_number self :
  (∀ phone,
     clean_phone_number from_string is_valid self = Return (Some phone) →
     ∃ number,
       phone_number self = Some number ∧ number ≠ "" ∧
       (from_string number None = Some phone ∨
        (from_string number None = None ∧
         is_valid phone = true ∧
         ∃ country,
           from_string number (Some (iso_3166_1_a2 country)) = Some phone))) ∧
  (clean_phone_number from_string is_valid self = Return None ↔
   phone_number self = None ∨ phone_number self = Some "").
Proof.
  unfold clean_phone_number. split.
  - intros phone.
    destruct (phone_number self) as [[|c number]|]; cbn [is_empty_value];
      [discriminate| |discriminate].
    cbn [default from_option Datatypes.id].
    set (n := String c number).
    intros H. exists n. split; [reflexivity|]. split; [discriminate|].
    destruct (from_string n None) as [p|] eqn:Hint.
    + injection H as <-. left. reflexivity.
    + right. split; [reflexivity|].
      destruct (hinted_country self) as [[country|]|[]]; try discriminate.
      unfold validate_local in H.
      destruct (match cleaned_country self with
                | Some c0 => c0 | None => Some country end) as [c'|];
        [|discriminate].
      destruct (from_string n (Some (iso_3166_1_a2 c'))) as [p|] eqn:Hloc;
        [|discriminate].
      destruct (is_valid p) eqn:Hv; [|discriminate].
      injection H as <-. split; [exact Hv|]. exists c'. exact Hloc.
  - destruct (phone_number self) as [[|c number]|]; cbn [is_empty_value].
    + split; [right|]; reflexivity.
    + cbn [default from_option Datatypes.id].
      split; [|intros [H|H]; discriminate].
      destruct (from_string _ None); [discriminate|].
      destruct (hinted_country self) as [[country|]|[]]; try discriminate.
      unfold validate_local.
      destruct (match cleaned_country self with
                | Some c0 => c0 | None => Some country end) as [c'|];
        [|discriminate].
      destruct (from_string _ (Some _)) as [p|]; [|discriminate].
      destruct (is_valid p); discriminate.
    + split; [left|]; reflexivity.
Qed.

(** X12. A number that parses in international format is returned as
    parsed, whatever [is_valid()] says of it and whatever the form knows
    about countries. *)
Theorem international_number_returned_unchecked self number phone :
  phone_number self = Some number →
  number ≠ "" →
  from_string number None = Some phone →
  clean_phone_number from_string is_valid self = Return (Some phone).
Proof.
  intros Hn Hne Hp. unfold clean_phone_number. rewrite Hn.
  destruct number as [|c number]; [congruence|].
  cbn [is_empty_value default from_option Datatypes.id].
  rewrite Hp. reflexivity.
Qed.

(** X13. Once the instance or the country field gives a country as hint, a
    [country] entry in [cleaned_data] is the one that counts: the number is
    judged for the cleaned country alone, so two forms that differ in the
    hinted country only are cleaned alike, and a cleaned country of [None]
    ends in an [AttributeError]. *)
Theorem cleaned_country_overrides_hint self number hint (cleaned : option Country) :
  phone_number self = Some number →
  number ≠ "" →
  from_string number None = None →
  hinted_country self = inl (Some hint) →
  cleaned_country self = Some cleaned →
  clean_phone_number from_string is_valid self
  = validate_local from_string is_valid number cleaned ∧
  (cleaned = None →
   clean_phone_number from_string is_valid self = NoneAttributeError).
Proof.
  intros Hn Hne Hp Hh Hc.
  assert (H : clean_phone_number from_string is_valid self
              = validate_local from_string is_valid number cleaned).
  { unfold clean_phone_number. rewrite Hn.
    destruct number as [|c number]; [congruence|].
    cbn [is_empty_value default from_option Datatypes.id].
    rewrite Hp, Hh, Hc. reflexivity. }
  split; [exact H|]. intros ->. rewrite H. reflexivity.
Qed.

(** X14. Every [ValidationError] of [clean_phone_number] carries one of
    three messages: not a valid international format when no country can
    be hinted, not a valid local format for the country when the number
    parses for its region but is not valid, and not a valid local or
    international format when it parses for neither. *)
Theorem phone_validation_messages self message :
  clean_phone_number from_string is_valid self = ValidationError message →
  ∃ number,
    phone_number self = Some number ∧
    from_string number None = None ∧
    ((message = "This is not a valid international phone format." ∧
      hinted_country self = inl None) ∨
     (∃ country,
        (message = "This is not a valid local or international phone format."
         ∧ from_string number (Some (iso_3166_1_a2 country)) = None) ∨
        (message = "This is not a valid local phone format for "
                   +:+ printable_name country +:+ "."
         ∧ ∃ phone,
             from_string number (Some (iso_3166_1_a2 country)) = Some phone
             ∧ is_valid phone = false))).
Proof.
  unfold clean_phone_number.
  destruct (phone_number self) as [[|c number]|]; cbn [is_empty_value];
    [discriminate| |discriminate].
  cbn [default from_option Datatypes.id]. set (n := String c number).
  intros H. exists n. split; [reflexivity|].
  destruct (from_string n None) as [p|] eqn:Hint; [discriminate|].
  split; [reflexivity|].
  destruct (hinted_country self) as [[country|]|[]]; [| |discriminate].
  - right. unfold validate_local in H.
    destruct (match cleaned_country self with
              | Some c0 => c0 | None => Some country end) as [c'|];
      [|discriminate].
    exists c'.
    destruct (from_string n (Some (iso_3166_1_a2 c'))) as [p|] eqn:Hloc.
    + destruct (is_valid p) eqn:Hv; [discriminate|].
      injection H as <-. right. split; [reflexivity|]. eauto.
    + injection H as <-. left. split; reflexivity.
  - injection H as <-. left. split; reflexivity.
Qed.

End PhoneNumberFacts.

Lemma returned_phone_number_witness :
  ∃ number,
    PhoneNumberForm.phone_number PhoneNumberForm.sample_form = Some number ∧
    number ≠ "" ∧
    (PhoneNumberForm.sample_from_string number None = Some "GB 2071234567" ∨
     (PhoneNumberForm.sample_from_string number None = None ∧
      PhoneNumberForm.sample_is_valid "GB 2071234567" = true ∧
      ∃ country,
        PhoneNumberForm.sample_from_string
          number (Some (PhoneNumberForm.iso_3166_1_a2 country))
        = Some "GB 2071234567")).
Proof.
  apply (proj1 (returned_phone_number
                  PhoneNumberForm.sample_from_string
                  PhoneNumberForm.sample_is_valid
                  PhoneNumberForm.sample_form)).
  vm_compute. reflexivity.
Defined.

Lemma international_number_returned_unchecked_witness :
  PhoneNumberForm.clean_phone_number
    PhoneNumberForm.sample_from_string PhoneNumberForm.sample_is_valid
    {| PhoneNumberForm.phone_number := Some "+44";
       PhoneNumberForm.instance_country := None;
       PhoneNumberForm.country_field_queryset := None;
       PhoneNumberForm.cleaned_country := None |}
  = PhoneNumberForm.Return (Some "+44")
  ∧ PhoneNumberForm.sample_is_valid "+44" = false.
Proof.
  split; [|reflexivity].
  apply (international_number_returned_unchecked
           PhoneNumberForm.sample_from_string PhoneNumberForm.sample_is_valid
           _ "+44" "+44"); [reflexivity | discriminate | reflexivity].
Defined.

Lemma cleaned_country_overrides_hint_witness :
  PhoneNumberForm.clean_phone_number
    PhoneNumberForm.sample_from_string PhoneNumberForm.sample_is_valid
    {| PhoneNumberForm.phone_number := Some "02071234567";
       PhoneNumberForm.instance_country :=
         Some (Some PhoneNumberForm.great_britain);
       PhoneNumberForm.country_field_queryset := None;
       PhoneNumberForm.cleaned_country := Some None |}
  = PhoneNumberForm.NoneAttributeError.
Proof.
  refine (proj2 (cleaned_country_overrides_hint
                   PhoneNumberForm.sample_from_string
                   PhoneNumberForm.sample_is_valid
                   _ "02071234567" PhoneNumberForm.great_britain None
                   _ _ _ _ _) _);
    reflexivity || discriminate.
Defined.

Lemma phone_validation_messages_witness :
  ∃ number,
    PhoneNumberForm.phone_number
      {| PhoneNumberForm.phone_number := Some "0207";
         PhoneNumberForm.instance_country := None;
         PhoneNumberForm.country_field_queryset :=
           Some [PhoneNumberForm.great_britain];
         PhoneNumberForm.cleaned_country := None |} = Some number ∧
    PhoneNumberForm.sample_from_string number None = None ∧
    (("This is not a valid local phone format for United Kingdom."
      = "This is not a valid international phone format." ∧
      PhoneNumberForm.hinted_country
        {| PhoneNumberForm.phone_number := Some "0207";
           PhoneNumberForm.instance_country := None;
           PhoneNumberForm.country_field_queryset :=
             Some [PhoneNumberForm.great_britain];
           PhoneNumberForm.cleaned_country := None |} = inl None) ∨
     (∃ country,
        ("This is not a valid local phone format for United Kingdom."
         = "This is not a valid local or international phone format."
         ∧ PhoneNumberForm.sample_from_string
             number (Some (PhoneNumberForm.iso_3166_1_a2 country)) = None) ∨
        ("This is not a valid local phone format for United Kingdom."
         = "This is not a valid local phone format for "
           +:+ PhoneNumberForm.printable_name country +:+ "."
         ∧ ∃ phone,
             PhoneNumberForm.sample_from_string
               number (Some (PhoneNumberForm.iso_3166_1_a2 country))
             = Some phone
             ∧ PhoneNumberForm.sample_is_valid phone = false))).
Proof.
  apply (phone_validation_messages
           PhoneNumberForm.sample_from_string PhoneNumberForm.sample_is_valid).
  vm_compute. reflexivity.
Defined.

(** * Further properties of the checkout mixin *)

Section CheckoutMoreFacts.
Import Checkout.

Variable generate_hash : Fields → string.

Implicit Types (self : OrderPlacementMixin) (db : DB) (u : User)
  (sa : ShippingAddress) (e : UserAddress).

Lemma elem_of_addresses_with_hash db u h e :
  e ∈ addresses_with_hash db u h ↔
  ∃ k, user_addresses db !! k = Some e ∧ user_id e = id u ∧ hash e = h.
Proof.
  unfold addresses_with_hash. rewrite list_elem_of_fmap. split.
  - intros ([k e'] & -> & Hin). apply elem_of_map_to_list in Hin.
    apply map_lookup_filter_Some in Hin as [Hk [Hu Hh]]. eauto.
  - intros (k & Hk & Hu & Hh). exists (k, e). split; [reflexivity|].
    apply elem_of_map_to_list, map_lookup_filter_Some. auto.
Qed.

(** What a successful [update_address_book] wrote. *)
Lemma update_address_book_ok u sa db db' :
  update_address_book generate_hash u sa db = Ok db' →
  shipping_addresses db' = shipping_addresses db ∧
  ∃ k e,
    user_addresses db' = <[k := e]> (user_addresses db) ∧
    pk e = Some k ∧ user_id e = id u ∧
    hash e = generate_hash (fields e) ∧
    ((addresses_with_hash db u (generate_hash (shipping_fields sa)) = [] ∧
      (k ∉ dom (user_addresses db)) ∧
      fields e = shipping_fields sa ∧ num_orders e = 1) ∨
     (∃ e0,
        addresses_with_hash db u (generate_hash (shipping_fields sa)) = [e0] ∧
        k = default (fresh (dom (user_addresses db))) (pk e0) ∧
        fields e = fields e0 ∧ num_orders e = num_orders e0 + 1)).
Proof.
  unfold update_address_book.
  destruct (addresses_with_hash db u _) as [|e0 [|e1 rest]] eqn:Hfound;
    cbn [get_one mbind result_bind]; [| |discriminate].
  - intros [= <-]. split; [reflexivity|].
    eexists _, _. split; [reflexivity|].
    cbn. do 3 (split; [reflexivity|]). left.
    split; [reflexivity|]. split; [apply is_fresh|]. split; reflexivity.
  - intros [= <-]. split; [reflexivity|].
    assert (He0 : e0 ∈ addresses_with_hash db u
                    (generate_hash (shipping_fields sa))).
    { rewrite Hfound. left. }
    apply elem_of_addresses_with_hash in He0 as (k0 & _ & Hu & _).
    eexists _, _. split; [reflexivity|].
    cbn. split; [reflexivity|]. split; [exact Hu|]. split; [reflexivity|].
    right. exists e0. split; [reflexivity|].
    split; [destruct (pk e0); reflexivity|]. split; reflexivity.
Qed.

(** X15. Address fields entered in the session take priority over a
    reference into the address book: the reference is not looked up, so it
    may be stale or point anywhere. *)
Theorem entered_fields_take_priority self db db0 b (f : Fields) addr_id :
  is_shipping_required
    (match b with Some b => b | None => basket (request self) end) = true →
  new_shipping_address_fields (checkout_session self) = Some f →
  f ≠ ∅ →
  get_shipping_address self db b
  = Ok (Some {| shipping_pk := None; shipping_fields := f |}) ∧
  get_shipping_address
    {| request := request self;
       checkout_session := {| new_shipping_address_fields := Some f;
                              user_address_id := addr_id |} |} db0 b
  = get_shipping_address self db b.
Proof.
  intros Hreq Hf Hne.
  assert (H : ∀ s d,
             request s = request self →
             new_shipping_address_fields (checkout_session s) = Some f →
             get_shipping_address s d b
             = Ok (Some {| shipping_pk := None; shipping_fields := f |})).
  { intros s d Hr Hs. unfold get_shipping_address.
    rewrite Hr, Hreq, Hs. cbn [negb truthy_fields].
    rewrite bool_decide_eq_false_2 by exact Hne. reflexivity. }
  split; [by apply H|]. rewrite !H; reflexivity || assumption.
Qed.




(** X17. [update_address_book] leaves the shipping addresses alone and
    writes one entry of the address book, an entry of the user it was
    given: the book grows by at most one entry, stays keyed by primary
    key, and every entry of another user or under another hash stays as it
    was. *)
Theorem update_address_book_writes_one_entry u sa db db' :
  well_keyed db →
  update_address_book generate_hash u sa db = Ok db' →
  shipping_addresses db' = shipping_addresses db ∧
  well_keyed db' ∧
  (size (user_addresses db') ≤ S (size (user_addresses db)))%nat ∧
  ∀ k e, user_addresses db !! k = Some e →
         user_id e ≠ id u ∨ hash e ≠ generate_hash (shipping_fields sa) →
         user_addresses db' !! k = Some e.
Proof.
  intros Hwk Hup.
  apply update_address_book_ok in Hup
    as (Hsh & k & e & Hua & Hpk & Hu & Hh & Hcase).
  split; [exact Hsh|]. split; [|split].
  - intros j e1. rewrite Hua, lookup_insert.
    case_decide as Hjk; [intros [= <-]; congruence | apply Hwk].
  - rewrite Hua. destruct (user_addresses db !! k) eqn:Hk.
    + rewrite map_size_insert_Some by eauto. lia.
    + rewrite map_size_insert_None by exact Hk. lia.
  - intros j e1 Hj Hother. rewrite Hua, lookup_insert_ne; [exact Hj|].
    intros <-. destruct Hcase as [(_ & Hfresh & _) | (e0 & Hone & Hk & _)].
    + apply not_elem_of_dom in Hfresh. congruence.
    + assert (He0 : e0 ∈ addresses_with_hash db u
                      (generate_hash (shipping_fields sa))).
      { rewrite Hone. left. }
      apply elem_of_addresses_with_hash in He0 as (k0 & Hk0 & Hu0 & Hh0).
      rewrite (Hwk _ _ Hk0) in Hk. cbn in Hk. subst k0.
      assert (e1 = e0) as -> by congruence.
      destruct Hother; congruence.
Qed.

(** X18. [update_address_book] fails exactly when the user has more than
    one entry under the hash of the address, and then with
    [MultipleObjectsReturned]: the lookup only provides for no entry. *)
Theorem update_address_book_fails_on_duplicates u sa db (err : exception) :
  update_address_book generate_hash u sa db = Raise err ↔
  err = MultipleObjectsReturned ∧
  (2 ≤ length (addresses_with_hash db u
                 (generate_hash (shipping_fields sa))))%nat.
Proof.
  unfold update_address_book.
  destruct (addresses_with_hash db u _) as [|e0 [|e1 rest]];
    cbn [get_one mbind result_bind length].
  - split; [discriminate | intros [_ H]; lia].
  - split; [discriminate | intros [_ H]; lia].
  - split; [intros [= <-]; split; [reflexivity|lia] | by intros [-> _]].
Qed.

Lemma elem_of_all_addresses_with_hash db h e :
  e ∈ all_addresses_with_hash db h ↔
  ∃ k, user_addresses db !! k = Some e ∧ hash e = h.
Proof.
  unfold all_addresses_with_hash. rewrite list_elem_of_fmap. split.
  - intros ([k e'] & -> & Hin). apply elem_of_map_to_list in Hin.
    apply map_lookup_filter_Some in Hin as [Hk Hh]. eauto.
  - intros (k & Hk & Hh). exists (k, e). split; [reflexivity|].
    apply elem_of_map_to_list, map_lookup_filter_Some. auto.
Qed.

(** X19. The deprecated [create_user_address] never changes or removes an
    entry of the address book and never raises a counter. It looks for the
    hash among the entries of every user: the address is added, with
    counter 0, only when nobody has an entry under its hash, so an address
    in another user's book is not added to the book of the user who is
    checking out. *)
Theorem create_user_address_adds_unknown_hash_only self (f : Fields) db :
  (∀ db', create_user_address generate_hash self f db = Ok db' →
          shipping_addresses db' = shipping_addresses db ∧
          ∀ k e, user_addresses db !! k = Some e →
                 user_addresses db' !! k = Some e) ∧
  (∀ k e, user_addresses db !! k = Some e →
          hash e = generate_hash f →
          ∀ db', create_user_address generate_hash self f db = Ok db' →
                 db' = db) ∧
  (is_authenticated (user (request self)) = true →
   (∀ k e, user_addresses db !! k = Some e → hash e ≠ generate_hash f) →
   ∃ k, user_addresses db !! k = None ∧
        create_user_address generate_hash self f db
        = Ok {| shipping_addresses := shipping_addresses db;
                user_addresses :=
                  <[k := {| pk := Some k;
                            user_id := id (user (request self));
                            fields := f; hash := generate_hash f;
                            num_orders := 0 |}]> (user_addresses db) |}).
Proof.
  unfold create_user_address. cbn [fields].
  destruct (all_addresses_with_hash db (generate_hash f))
    as [|e0 [|e1 rest]] eqn:Hall; cbn [get_one].
  - (* nobody has the hash *)
    assert (Hfresh : user_addresses db
                       !! fresh (dom (user_addresses db)) = None).
    { apply not_elem_of_dom, is_fresh. }
    split; [|split].
    + intros db'. destruct (is_authenticated _); intros [= <-];
        [|split; auto].
      split; [reflexivity|]. intros k e Hk. cbn.
      rewrite lookup_insert_ne; [exact Hk | congruence].
    + intros k e Hk Hh.
      assert (He : e ∈ all_addresses_with_hash db (generate_hash f)).
      { apply elem_of_all_addresses_with_hash. eauto. }
      rewrite Hall in He. by inversion He.
    + intros -> _. eexists. split; [exact Hfresh|]. reflexivity.
  - (* one entry has it *)
    split; [|split].
    + intros db'. destruct (is_authenticated _); intros [= <-]; split; auto.
    + intros k e _ _ db'. destruct (is_authenticated _); by intros [= <-].
    + intros _ Hnone.
      assert (He : e0 ∈ all_addresses_with_hash db (generate_hash f)).
      { rewrite Hall. left. }
      apply elem_of_all_addresses_with_hash in He as (k & Hk & Hh).
      destruct (Hnone k e0 Hk Hh).
  - (* several entries have it *)
    split; [|split].
    + intros db'. destruct (is_authenticated _); [discriminate|].
      intros [= <-]; split; auto.
    + intros k e _ _ db'. destruct (is_authenticated _); [discriminate|].
      by intros [= <-].
    + intros _ Hnone.
      assert (He : e0 ∈ all_addresses_with_hash db (generate_hash f)).
      { rewrite Hall. left. }
      apply elem_of_all_addresses_with_hash in He as (k & Hk & Hh).
      destruct (Hnone k e0 Hk Hh).
Qed.

(** X20. The deprecated [create_shipping_address_from_user_address] lets
    the [DoesNotExist] of a missing entry through as it is. For an entry
    that exists it raises the entry's counter by one, whoever is checking
    out, and stores a shipping address with the entry's fields under a
    primary key that was not in use. *)
Theorem create_shipping_address_from_user_address_counts addr_id db :
  (user_addresses db !! addr_id = None →
   create_shipping_address_from_user_address generate_hash addr_id db
   = Raise DoesNotExist) ∧
  (∀ e, user_addresses db !! addr_id = Some e →
        pk e = Some addr_id →
        ∃ k,
          shipping_addresses db !! k = None ∧
          create_shipping_address_from_user_address generate_hash addr_id db
          = Ok ({| shipping_pk := Some k; shipping_fields := fields e |},
                {| shipping_addresses :=
                     <[k := {| shipping_pk := Some k;
                               shipping_fields := fields e |}]>
                       (shipping_addresses db);
                   user_addresses :=
                     <[addr_id := {| pk := Some addr_id;
                                     user_id := user_id e;
                                     fields := fields e;
                                     hash := generate_hash (fields e);
                                     num_orders := num_orders e + 1 |}]>
                       (user_addresses db) |})).
Proof.
  unfold create_shipping_address_from_user_address, get_user_address. split.
  - intros ->. reflexivity.
  - intros e -> Hpk. cbn [mbind result_bind].
    exists (fresh (dom (shipping_addresses db))). split.
    + apply not_elem_of_dom, is_fresh.
    + unfold save_user_address, save_shipping_address. cbn. rewrite Hpk.
      reflexivity.
Qed.

End CheckoutMoreFacts.

Lemma entered_fields_take_priority_witness :
  Checkout.get_shipping_address
    {| Checkout.request := Checkout.sample_request;
       Checkout.checkout_session :=
         {| Checkout.new_shipping_address_fields := Some Checkout.sample_fields;
            Checkout.user_address_id := Some 99 |} |}
    Checkout.empty_db None
  = Checkout.get_shipping_address
      Checkout.sample_view_new_address Checkout.sample_db None.
Proof.
  refine (proj2 (entered_fields_take_priority
                   Checkout.sample_view_new_address Checkout.sample_db
                   Checkout.empty_db None Checkout.sample_fields (Some 99)
                   _ _ _)).
  - reflexivity.
  - reflexivity.
  - apply (bool_decide_unpack (Checkout.sample_fields ≠ ∅)).
    vm_compute. exact I.
Defined.


Lemma sample_db_well_keyed : Checkout.well_keyed Checkout.sample_db.
Proof.
  intros k e H.
  change (({[ 7 := Checkout.sample_entry ]} : gmap Z Checkout.UserAddress)
            !! k = Some e) in H.
  apply lookup_singleton_Some in H as [<- <-]. reflexivity.
Qed.

Lemma update_address_book_writes_one_entry_witness :
  ∃ db',
    Checkout.update_address_book
      Checkout.sample_hash (Checkout.user Checkout.sample_request)
      Checkout.sample_shipping_address Checkout.sample_db = Ok db' ∧
    Checkout.well_keyed db'.
Proof.
  eexists. split; [vm_compute; reflexivity|].
  refine (proj1 (proj2 (update_address_book_writes_one_entry
                          Checkout.sample_hash
                          (Checkout.user Checkout.sample_request)
                          Checkout.sample_shipping_address
                          Checkout.sample_db _ sample_db_well_keyed _))).
  vm_compute. reflexivity.
Defined.

Lemma update_address_book_fails_on_duplicates_witness :
  Checkout.update_address_book
    Checkout.sample_hash (Checkout.user Checkout.sample_request)
    Checkout.sample_shipping_address Checkout.duplicated_db
  = Raise MultipleObjectsReturned.
Proof.
  apply (proj2 (update_address_book_fails_on_duplicates
                  Checkout.sample_hash _ _ _ _)).
  split; [reflexivity|]. vm_compute. lia.
Defined.

Lemma create_user_address_adds_unknown_hash_only_witness :
  ∃ k, Checkout.user_addresses Checkout.empty_db !! k = None ∧
       Checkout.create_user_address
         Checkout.sample_hash Checkout.sample_view_new_address
         Checkout.sample_fields Checkout.empty_db
       = Ok {| Checkout.shipping_addresses :=
                 Checkout.shipping_addresses Checkout.empty_db;
               Checkout.user_addresses :=
                 <[k := {| Checkout.pk := Some k;
                           Checkout.user_id :=
                             Checkout.id
                               (Checkout.user
                                  (Checkout.request
                                     Checkout.sample_view_new_address));
                           Checkout.fields := Checkout.sample_fields;
                           Checkout.hash :=
                             Checkout.sample_hash Checkout.sample_fields;
                           Checkout.num_orders := 0 |}]>
                   (Checkout.user_addresses Checkout.empty_db) |}.
Proof.
  refine (proj2 (proj2 (create_user_address_adds_unknown_hash_only
                          Checkout.sample_hash
                          Checkout.sample_view_new_address
                          Checkout.sample_fields Checkout.empty_db))
                _ _).
  - reflexivity.
  - intros k e H.
    change ((∅ : gmap Z Checkout.UserAddress) !! k = Some e) in H.
    rewrite lookup_empty in H. discriminate H.
Defined.

Lemma create_shipping_address_from_user_address_counts_witness :
  ∃ k,
    Checkout.shipping_addresses Checkout.sample_db !! k = None ∧
    Checkout.create_shipping_address_from_user_address
      Checkout.sample_hash 7 Checkout.sample_db
    = Ok ({| Checkout.shipping_pk := Some k;
             Checkout.shipping_fields :=
               Checkout.fields Checkout.sample_entry |},
          {| Checkout.shipping_addresses :=
               <[k := {| Checkout.shipping_pk := Some k;
                         Checkout.shipping_fields :=
                           Checkout.fields Checkout.sample_entry |}]>
                 (Checkout.shipping_addresses Checkout.sample_db);
             Checkout.user_addresses :=
               <[7 := {| Checkout.pk := Some 7;
                         Checkout.user_id :=
                           Checkout.user_id Checkout.sample_entry;
                         Checkout.fields :=
                           Checkout.fields Checkout.sample_entry;
                         Checkout.hash :=
                           Checkout.sample_hash
                             (Checkout.fields Checkout.sample_entry);
                         Checkout.num_orders :=
                           Checkout.num_orders Checkout.sample_entry + 1 |}]>
                 (Checkout.user_addresses Checkout.sample_db) |}).
Proof.
  apply (proj2 (create_shipping_address_from_user_address_counts
                  Checkout.sample_hash 7 Checkout.sample_db)).
  - vm_compute. reflexivity.
  - reflexivity.
Defined.

(** * Properties of the payment details *)

Section PaymentFacts.
Import Payment.

Implicit Types (self : View) (tables : Tables) (o : Order).

Lemma save_events_unsaved o events :
  ∀ table,
    Forall (λ e, event_pk e = None) events →
    save_events o events table
    = (saved_events o table events, table ++ saved_events o table events).
Proof.
  unfold saved_events.
  induction events as [|e events IH]; intros table Hun.
  - cbn. rewrite app_nil_r. reflexivity.
  - inversion Hun as [|? ? He Hrest]; subst.
    assert (Hsave : save_row event_pk set_event_pk (set_event_order o e) table
                    = (set_event_pk (length table) (set_event_order o e),
                       table ++ [set_event_pk (length table)
                                              (set_event_order o e)])).
    { unfold save_row. cbn [event_pk set_event_order]. rewrite He.
      reflexivity. }
    cbn [save_events]. rewrite Hsave. cbn [fst snd].
    rewrite (IH _ Hrest), imap_cons, length_app. cbn [length fst snd].
    rewrite Nat.add_0_r, <- app_assoc. cbn [app].
    assert (Hext : imap (λ i e0, set_event_pk (length table + 1 + i)
                                   (set_event_order o e0)) events
                   = imap ((λ i e0, set_event_pk (length table + i)
                                      (set_event_order o e0)) ∘ S) events).
    { apply imap_ext. intros i x _. cbn. f_equal. lia. }
    rewrite Hext. reflexivity.
Qed.

Lemma save_sources_unsaved o srcs :
  ∀ table,
    Forall (λ s, source_pk s = None) srcs →
    save_sources o srcs table
    = (saved_sources o table srcs, table ++ saved_sources o table srcs).
Proof.
  unfold saved_sources.
  induction srcs as [|x srcs IH]; intros table Hun.
  - cbn. rewrite app_nil_r. reflexivity.
  - inversion Hun as [|? ? Hx Hrest]; subst.
    assert (Hsave : save_row source_pk set_source_pk (set_source_order o x)
                             table
                    = (set_source_pk (length table) (set_source_order o x),
                       table ++ [set_source_pk (length table)
                                               (set_source_order o x)])).
    { unfold save_row. cbn [source_pk set_source_order]. rewrite Hx.
      reflexivity. }
    cbn [save_sources]. rewrite Hsave. cbn [fst snd].
    rewrite (IH _ Hrest), imap_cons, length_app. cbn [length fst snd].
    rewrite Nat.add_0_r, <- app_assoc. cbn [app].
    assert (Hext : imap (λ i s0, set_source_pk (length table + 1 + i)
                                   (set_source_order o s0)) srcs
                   = imap ((λ i s0, set_source_pk (length table + i)
                                      (set_source_order o s0)) ∘ S) srcs).
    { apply imap_ext. intros i y _. cbn. f_equal. lia. }
    rewrite Hext. reflexivity.
Qed.

Lemma last_saved_events o (table events : list PaymentEvent) e_last :
  last events = Some e_last →
  last (saved_events o table events)
  = Some (set_event_pk (length table + length events - 1)
                       (set_event_order o e_last)).
Proof.
  intros Hlast. unfold saved_events.
  rewrite last_lookup, length_imap, list_lookup_imap.
  rewrite last_lookup in Hlast. rewrite Hlast. cbn.
  destruct events as [|e events]; [discriminate|].
  cbn [length]. do 2 f_equal. lia.
Qed.

(** X21. [save_payment_events] saves every buffered event with the order
    set, in buffer order, and then writes one quantity row for each line of
    the order with the line's full quantity: all of them for the last
    event of the buffer, whatever the number of events. With nothing
    buffered it writes nothing. *)
Theorem save_payment_events_binds_lines_to_last_event
    self tables o events e_last :
  _payment_events self = Some events →
  Forall (λ e, event_pk e = None) events →
  last events = Some e_last →
  let k := (length (payment_events tables) + length events - 1)%nat in
  let tables' := (save_payment_events self tables o).2 in
  payment_events tables'
  = payment_events tables
    ++ saved_events o (payment_events tables) events ∧
  payment_events tables' !! k
  = Some (set_event_pk k (set_event_order o e_last)) ∧
  payment_event_quantities tables'
  = payment_event_quantities tables
    ++ ((λ l, {| event := Some k; line := l;
                 event_quantity := quantity l |}) <$> lines o) ∧
  sources tables' = sources tables.
Proof.
  intros Hbuf Hun Hlast k tables'. subst tables' k.
  unfold save_payment_events. rewrite Hbuf.
  destruct events as [|e0 rest]; [discriminate|].
  cbv beta iota zeta.
  remember (e0 :: rest) as events eqn:Hev.
  assert (Hlen : (0 < length events)%nat) by (subst events; cbn; lia).
  rewrite (save_events_unsaved o events _ Hun). cbn [fst snd].
  rewrite (last_saved_events o _ events e_last Hlast).
  cbn [payment_events payment_event_quantities sources mbind option_bind
       set_event_pk event_pk].
  split; [reflexivity|]. split; [|split; reflexivity].
  rewrite lookup_app_r by lia.
  pose proof (last_saved_events o (payment_events tables) events e_last Hlast)
    as Hl.
  rewrite last_lookup in Hl. unfold saved_events in Hl at 1.
  rewrite length_imap in Hl.
  replace (length (payment_events tables) + length events - 1
           - length (payment_events tables))%nat
    with (pred (length events)) by lia.
  exact Hl.
Qed.

Lemma save_payment_events_binds_lines_to_last_event_witness :
  payment_event_quantities
    (save_payment_events
       {| _payment_sources := None; _payment_events := Some sample_events |}
       empty_tables sample_order).2
  = [ {| event := Some 1%nat; line := {| line_id := 1; quantity := 2 |};
         event_quantity := 2 |};
      {| event := Some 1%nat; line := {| line_id := 2; quantity := 1 |};
         event_quantity := 1 |} ].
Proof.
  refine (proj1 (proj2 (proj2
            (save_payment_events_binds_lines_to_last_event
               {| _payment_sources := None;
                  _payment_events := Some sample_events |}
               empty_tables sample_order sample_events
               {| event_pk := None; event_type := "settle"; amount := 3000;
                  reference := Some "ref-9"; event_order := None |}
               _ _ _)))).
  - reflexivity.
  - repeat constructor.
  - reflexivity.
Defined.

Lemma add_payment_source_buffers self (srcs : list Source) :
  _payment_sources (foldl add_payment_source self srcs)
  = match srcs with
    | [] => _payment_sources self
    | _ => Some (default [] (_payment_sources self) ++ srcs)
    end.
Proof.
  revert self. induction srcs as [|x srcs IH]; intros self; [reflexivity|].
  cbn [foldl]. rewrite IH. destruct srcs as [|y srcs].
  - cbn. destruct (_payment_sources self); reflexivity.
  - cbn [add_payment_source _payment_sources default from_option Datatypes.id].
    rewrite <- app_assoc. destruct (_payment_sources self); reflexivity.
Qed.

(** X22. The payment sources added with [add_payment_source] are saved by
    [save_payment_sources] in the order they were added, each with the
    order set, and nothing else is written; when none was added nothing is
    written at all. *)
Theorem payment_sources_saved_in_order tables o (srcs : list Source) :
  Forall (λ x, source_pk x = None) srcs →
  let self := foldl add_payment_source empty_view srcs in
  let tables' := (save_payment_sources self tables o).2 in
  sources tables' = sources tables ++ saved_sources o (sources tables) srcs ∧
  payment_events tables' = payment_events tables ∧
  payment_event_quantities tables' = payment_event_quantities tables ∧
  payment_event_types tables' = payment_event_types tables.
Proof.
  intros Hun self tables'. subst tables' self.
  unfold save_payment_sources. rewrite add_payment_source_buffers.
  destruct srcs as [|x rest].
  - cbn. rewrite app_nil_r. repeat split.
  - cbn [empty_view _payment_sources default from_option Datatypes.id app].
    cbv beta iota zeta.
    rewrite (save_sources_unsaved o (x :: rest) _ Hun). cbn [fst snd sources
      payment_events payment_event_quantities payment_event_types].
    repeat split.
Qed.

Lemma payment_sources_saved_in_order_witness :
  sources
    (save_payment_sources
       (foldl add_payment_source empty_view
          [ {| source_pk := None; source_data := "card";
               source_order := None |};
            {| source_pk := None; source_data := "voucher";
               source_order := None |} ])
       empty_tables sample_order).2
  = sources empty_tables
    ++ saved_sources sample_order (sources empty_tables)
         [ {| source_pk := None; source_data := "card";
              source_order := None |};
           {| source_pk := None; source_data := "voucher";
              source_order := None |} ].
Proof.
  apply (payment_sources_saved_in_order empty_tables sample_order).
  repeat constructor.
Defined.

Lemma filter_eq_NoDup (name : string) (types : list string) :
  NoDup types →
  filter (λ t, t = name) types = [] ∧ name ∉ types ∨
  filter (λ t, t = name) types = [name] ∧ name ∈ types.
Proof.
  induction 1 as [|t types Hnotin Hnd IH].
  - left. split; [reflexivity | by inversion 1].
  - rewrite filter_cons. case_decide as Ht.
    + subst t. right. split; [|by left].
      destruct IH as [[-> _]|[_ Hin]]; [reflexivity | contradiction].
    + destruct IH as [[-> Hno]|[-> Hin]].
      * left. split; [reflexivity|]. intros Hin. inversion Hin; subst; auto.
      * right. split; [reflexivity | by right].
Qed.

(** X23. [add_payment_event] creates the event type only when no type of
    that name exists, so a table of event types without duplicates stays
    without duplicates whatever is added; the event is put at the end of
    the buffer, without order and unsaved, and no payment event is
    written before the order is placed. *)
Theorem add_payment_event_buffers self tables name amt ref :
  NoDup (payment_event_types tables) →
  ∃ self' tables',
    add_payment_event self tables name amt ref = Ok (self', tables') ∧
    NoDup (payment_event_types tables') ∧
    name ∈ payment_event_types tables' ∧
    (∀ t, t ∈ payment_event_types tables' ↔
          t ∈ payment_event_types tables ∨ t = name) ∧
    _payment_events self'
    = Some (default [] (_payment_events self)
            ++ [{| event_pk := None; event_type := name; amount := amt;
                   reference := ref; event_order := None |}]) ∧
    payment_events tables' = payment_events tables ∧
    payment_event_quantities tables' = payment_event_quantities tables.
Proof.
  intros Hnd. unfold add_payment_event, get_or_create_event_type.
  destruct (filter_eq_NoDup name _ Hnd) as [[-> Hno]|[-> Hin]];
    cbn [mbind result_bind]; eexists _, _; (split; [reflexivity|]);
    cbn [payment_event_types payment_events payment_event_quantities
         _payment_events].
  - split; [|split; [|split; [|split; [|split; reflexivity]]]].
    + apply NoDup_app. split; [exact Hnd|]. split; [|apply NoDup_singleton].
      intros t Ht Ht'. apply list_elem_of_singleton in Ht'. congruence.
    + apply elem_of_app. right. by left.
    + intros t. rewrite elem_of_app, list_elem_of_singleton. tauto.
    + destruct (_payment_events self); reflexivity.
  - split; [exact Hnd|]. split; [exact Hin|].
    split; [|split; [|split; reflexivity]].
    + intros t. split; [auto | intros [H| ->]; assumption].
    + destruct (_payment_events self); reflexivity.
Qed.

Lemma add_payment_event_buffers_witness :
  ∃ self' tables',
    add_payment_event
      {| _payment_sources := None; _payment_events := Some sample_events |}
      {| payment_event_types := ["pre-auth"; "settle"]; payment_events := [];
         payment_event_quantities := []; sources := [] |}
      "settle" 150 None = Ok (self', tables') ∧
    payment_event_types tables' = ["pre-auth"; "settle"].
Proof.
  destruct (add_payment_event_buffers
              {| _payment_sources := None;
                 _payment_events := Some sample_events |}
              {| payment_event_types := ["pre-auth"; "settle"];
                 payment_events := [];
                 payment_event_quantities := []; sources := [] |}
              "settle" 150 None) as (self' & tables' & Hadd & _).
  - apply (bool_decide_unpack _). vm_compute. exact I.
  - exists self', tables'. split; [exact Hadd|].
    vm_compute in Hadd. injection Hadd as Hs Ht. subst tables'. reflexivity.
Defined.

End PaymentFacts.

(** * Properties of [place_order] *)

Section OrderPlacementFacts.
Import OrderPlacement.

Context {Method : Type}.
Variable generate_hash : Checkout.Fields → string.
Variable creator : OrderArguments Method → result Payment.Order.

Implicit Types (self : Checkout.OrderPlacementMixin) (kw : Kwargs)
  (u : option Checkout.User) (b : Checkout.Basket) (method : Method).

Lemma order_arguments_kwargs self guest_email method sa number b incl excl u kw :
  kwargs (order_arguments self guest_email method sa number b incl excl u kw)
  = (if negb (Checkout.is_authenticated
                (Checkout.user (Checkout.request self)))
        && bool_decide (delete "status" kw !! "guest_email" = None)
     then <["guest_email" := guest_email]> (delete "status" kw)
     else delete "status" kw).
Proof.
  unfold order_arguments.
  destruct (kw !! "status") as [v|] eqn:Hs; cbn [kwargs].
  - reflexivity.
  - rewrite (delete_id kw "status") by exact Hs. reflexivity.
Qed.

(** X24. An explicit [guest_email] among the extra arguments always reaches
    the order creator as it is. The guest email of the session is filled
    in only when the user of the request is not signed in and none was
    passed, whoever the order is placed for; the other extra arguments
    pass through unchanged. *)
Theorem explicit_guest_email_is_kept
    self guest_email method sa number b incl excl u kw :
  let args :=
    order_arguments self guest_email method sa number b incl excl u kw in
  (∀ v, kw !! "guest_email" = Some v →
        kwargs args !! "guest_email" = Some v) ∧
  (Checkout.is_authenticated (Checkout.user (Checkout.request self)) = true →
   kwargs args !! "guest_email" = kw !! "guest_email") ∧
  (Checkout.is_authenticated (Checkout.user (Checkout.request self)) = false →
   kw !! "guest_email" = None →
   kwargs args !! "guest_email" = Some guest_email) ∧
  (∀ k, k ≠ "status" → k ≠ "guest_email" → kwargs args !! k = kw !! k).
Proof.
  intros args. subst args. rewrite order_arguments_kwargs.
  assert (Hg : delete "status" kw !! "guest_email" = kw !! "guest_email").
  { apply lookup_delete_ne. discriminate. }
  rewrite Hg. split; [|split; [|split]].
  - intros v Hv. rewrite Hv.
    rewrite (bool_decide_eq_false_2 (Some v = None)) by discriminate.
    rewrite andb_false_r. rewrite Hg. exact Hv.
  - intros ->. cbn. exact Hg.
  - intros -> Hnone. rewrite Hnone.
    rewrite bool_decide_eq_true_2 by reflexivity. cbn [negb andb].
    apply lookup_insert_eq.
  - intros k Hs Hk.
    destruct (negb _ && _).
    + rewrite lookup_insert_ne by congruence. by apply lookup_delete_ne.
    + by apply lookup_delete_ne.
Qed.

(** X25. The status handed to the order creator is the [status] extra
    argument when there is one and [None] otherwise, and [status] is never
    left among the extra arguments; the user is the one passed in, else
    the user of the request; the billing address is [None]. *)
Theorem status_and_user_arguments
    self guest_email method sa number b incl excl u kw :
  let args :=
    order_arguments self guest_email method sa number b incl excl u kw in
  status args = match kw !! "status" with
                | Some v => v
                | None => None
                end ∧
  kwargs args !! "status" = None ∧
  user args = match u with
              | Some u => u
              | None => Checkout.user (Checkout.request self)
              end ∧
  billing_address args = None ∧
  shipping_address args = sa.
Proof.
  intros args. split; [|split; [|split; [|split]]].
  - subst args. unfold order_arguments.
    destruct (kw !! "status"); reflexivity.
  - subst args. rewrite order_arguments_kwargs.
    destruct (negb _ && _).
    + rewrite lookup_insert_ne by discriminate. apply lookup_delete_eq.
    + apply lookup_delete_eq.
  - subst args. unfold order_arguments.
    destruct (kw !! "status"); reflexivity.
  - subst args. unfold order_arguments.
    destruct (kw !! "status"); reflexivity.
  - subst args. unfold order_arguments.
    destruct (kw !! "status"); reflexivity.
Qed.


End OrderPlacementFacts.

Lemma explicit_guest_email_is_kept_witness :
  OrderPlacement.kwargs
    (OrderPlacement.order_arguments
       OrderPlacement.anonymous_view (Some "session@example.com") "post"
       None "100012" {| Checkout.is_shipping_required := true |} 3000 2500
       None {[ "guest_email" := Some "paypal@example.com";
               "status" := Some "Pending" ]})
    !! "guest_email" = Some (Some "paypal@example.com").
Proof.
  apply (proj1 (explicit_guest_email_is_kept
                  OrderPlacement.anonymous_view (Some "session@example.com")
                  "post" None "100012"
                  {| Checkout.is_shipping_required := true |} 3000 2500 None
                  {[ "guest_email" := Some "paypal@example.com";
                     "status" := Some "Pending" ]})).
  vm_compute. reflexivity.
Defined.


(** * Properties of the confirmation message *)

Section ConfirmationFacts.
Import Confirmation.

Context {EventType : Type}.
Variable get_and_render : string → Context → Messages.
Variable get_messages : EventType → Context → Messages.
Variable reverse_anon_order : string → string → string.
Variable verification_hash : Payment.Order → string.

Implicit Types (self : Checkout.OrderPlacementMixin) (o : Payment.Order)
  (event_type : option EventType) (effects : list (effect EventType)).

Lemma send_confirmation_message_cases self code site event_type o :
  send_confirmation_message get_and_render get_messages reverse_anon_order
                            verification_hash self code site event_type o
  = let messages :=
      rendered_messages get_and_render get_messages reverse_anon_order
                        verification_hash self code site event_type o in
    let created := created_events event_type o in
    let warning :=
      LogWarning ("Order #" +:+ Payment.number o +:+ " - no " +:+ code
                  +:+ " communication event type") in
    if bool_decide (messages = ∅) then Returned (created ++ [warning])
    else
      match messages !! "body" with
      | None => BodyKeyError created
      | Some "" => Returned (created ++ [warning])
      | Some _ =>
          Returned
            (created
             ++ [LogInfo ("Order #" +:+ Payment.number o +:+ " - sending "
                          +:+ code +:+ " messages");
                 DispatchOrderMessages o messages event_type])
      end.
Proof. destruct event_type; reflexivity. Qed.

Lemma created_events_no_dispatch event_type o o' m t :
  DispatchOrderMessages o' m t ∉ created_events event_type o.
Proof.
  destruct event_type as [t0|]; cbn; intros H.
  - apply list_elem_of_singleton in H. discriminate H.
  - inversion H.
Qed.

Lemma no_dispatch_before_warning event_type o o' m t message :
  DispatchOrderMessages o' m t
  ∉ created_events event_type o ++ [LogWarning message].
Proof.
  intros H. apply elem_of_app in H as [H|H].
  - by apply created_events_no_dispatch in H.
  - apply list_elem_of_singleton in H. discriminate H.
Qed.

(** X27. The order messages are dispatched exactly when the rendered
    messages hold a [body] that is not empty; what is dispatched are the
    rendered messages with the event type found. Every other call that
    returns ends with a logged warning and sends nothing. *)
Theorem messages_dispatched_iff_body self code site event_type o :
  let messages :=
    rendered_messages get_and_render get_messages reverse_anon_order
                      verification_hash self code site event_type o in
  let sent :=
    send_confirmation_message get_and_render get_messages reverse_anon_order
                              verification_hash self code site event_type o in
  ((∃ effects m t, sent = Returned effects ∧
                   DispatchOrderMessages o m t ∈ effects) ↔
   (∃ body, messages !! "body" = Some body ∧ body ≠ "")) ∧
  (∀ effects m t,
     sent = Returned effects →
     DispatchOrderMessages o m t ∈ effects →
     m = messages ∧ t = event_type) ∧
  (∀ effects,
     sent = Returned effects →
     (∀ m t, DispatchOrderMessages o m t ∉ effects) →
     ∃ message, last effects = Some (LogWarning message)).
Proof.
  intros messages sent. subst sent.
  rewrite send_confirmation_message_cases. fold messages. cbv zeta.
  case_bool_decide as Hempty.
  { (* no messages at all *)
    split; [split|split].
    - intros (effects & m & t & [= <-] & Hin).
      by apply no_dispatch_before_warning in Hin.
    - intros (body & Hbody & _). rewrite Hempty, lookup_empty in Hbody.
      discriminate.
    - intros effects m t [= <-] Hin.
      by apply no_dispatch_before_warning in Hin.
    - intros effects [= <-] _. eexists. apply last_snoc. }
  destruct (messages !! "body") as [[|c body]|] eqn:Hbody.
  - (* an empty body *)
    split; [split|split].
    + intros (effects & m & t & [= <-] & Hin).
      by apply no_dispatch_before_warning in Hin.
    + intros (body & [= <-] & Hne). congruence.
    + intros effects m t [= <-] Hin.
      by apply no_dispatch_before_warning in Hin.
    + intros effects [= <-] _. eexists. apply last_snoc.
  - (* a body *)
    split; [split|split].
    + intros _. eexists. split; [reflexivity | discriminate].
    + intros _. eexists _, messages, event_type. split; [reflexivity|].
      apply elem_of_app. right. right. left.
    + intros effects m t [= <-] Hin.
      apply elem_of_app in Hin as [Hin|Hin];
        [by apply created_events_no_dispatch in Hin|].
      apply elem_of_cons in Hin as [Hin|Hin]; [discriminate Hin|].
      apply list_elem_of_singleton in Hin. injection Hin as <- <-. done.
    + intros effects [= <-] Hno. exfalso.
      apply (Hno messages event_type).
      apply elem_of_app. right. right. left.
  - (* messages without body *)
    split; [split|split].
    + intros (effects & m & t & Hret & _). discriminate Hret.
    + intros (body & Hb & _). discriminate Hb.
    + intros effects m t Hret. discriminate Hret.
    + intros effects Hret. discriminate Hret.
Qed.

(** X28. When the communication event type exists, a communication event
    for the order is recorded first of all, before it is known whether
    anything will be sent, so also when nothing is. When the type does not
    exist, no communication event is recorded, and the call still returns
    whenever the rendered messages are empty or have a [body]. *)
Theorem communication_event_recorded_first self code site event_type o :
  let messages :=
    rendered_messages get_and_render get_messages reverse_anon_order
                      verification_hash self code site event_type o in
  let sent :=
    send_confirmation_message get_and_render get_messages reverse_anon_order
                              verification_hash self code site event_type o in
  (∀ t, event_type = Some t →
        ∃ rest, sent = Returned (CreateCommunicationEvent o t :: rest) ∨
                sent = BodyKeyError (CreateCommunicationEvent o t :: rest)) ∧
  (event_type = None →
   ∀ effects o' t, sent = Returned effects ∨ sent = BodyKeyError effects →
                   CreateCommunicationEvent o' t ∉ effects) ∧
  (messages = ∅ ∨ is_Some (messages !! "body") →
   ∃ effects, sent = Returned effects).
Proof.
  intros messages sent. subst sent.
  rewrite send_confirmation_message_cases. fold messages. cbv zeta.
  split; [|split].
  - intros t ->. cbn [created_events app].
    case_bool_decide; [eauto|].
    destruct (messages !! "body") as [[|c body]|]; eauto.
  - intros ->. cbn [created_events app]. intros effects o' t.
    case_bool_decide.
    + intros [[= <-]|[=]] Hin. apply list_elem_of_singleton in Hin.
      discriminate Hin.
    + destruct (messages !! "body") as [[|c body]|].
      * intros [[= <-]|[=]] Hin. apply list_elem_of_singleton in Hin.
        discriminate Hin.
      * intros [[= <-]|[=]] Hin.
        apply elem_of_cons in Hin as [Hin|Hin]; [discriminate Hin|].
        apply list_elem_of_singleton in Hin. discriminate Hin.
      * intros [[=]|[= <-]] Hin. inversion Hin.
  - intros Hok. case_bool_decide as Hempty; [eauto|].
    destruct Hok as [Hm|[body Hbody]]; [contradiction|].
    rewrite Hbody. destruct body; eauto.
Qed.

End ConfirmationFacts.

Lemma messages_dispatched_iff_body_witness :
  ∃ effects m t,
    Confirmation.send_confirmation_message
      Confirmation.sample_render (λ t : string, Confirmation.sample_render t)
      Confirmation.sample_reverse (λ o, "abc")
      OrderPlacement.anonymous_view "ORDER_PLACED" Confirmation.sample_site
      None Payment.sample_order
    = Confirmation.Returned effects ∧
    Confirmation.DispatchOrderMessages Payment.sample_order m t ∈ effects.
Proof.
  apply (proj2 (proj1 (messages_dispatched_iff_body
                         Confirmation.sample_render
                         (λ t : string, Confirmation.sample_render t)
                         Confirmation.sample_reverse (λ o, "abc")
                         OrderPlacement.anonymous_view "ORDER_PLACED"
                         Confirmation.sample_site None
                         Payment.sample_order))).
  eexists. split; [vm_compute; reflexivity | discriminate].
Defined.

Lemma communication_event_recorded_first_witness :
  ∃ rest,
    Confirmation.send_confirmation_message
      Confirmation.sample_render (λ t : string, Confirmation.sample_render t)
      Confirmation.sample_reverse (λ o, "abc")
      Checkout.sample_view_new_address "ORDER_PLACED"
      Confirmation.sample_site (Some "ORDER_PLACED") Payment.sample_order
    = Confirmation.Returned
        (Confirmation.CreateCommunicationEvent Payment.sample_order
                                               "ORDER_PLACED" :: rest) ∨
    Confirmation.send_confirmation_message
      Confirmation.sample_render (λ t : string, Confirmation.sample_render t)
      Confirmation.sample_reverse (λ o, "abc")
      Checkout.sample_view_new_address "ORDER_PLACED"
      Confirmation.sample_site (Some "ORDER_PLACED") Payment.sample_order
    = Confirmation.BodyKeyError
        (Confirmation.CreateCommunicationEvent Payment.sample_order
                                               "ORDER_PLACED" :: rest).
Proof.
  apply (proj1 (communication_event_recorded_first
                  Confirmation.sample_render
                  (λ t : string, Confirmation.sample_render t)
                  Confirmation.sample_reverse (λ o, "abc")
                  Checkout.sample_view_new_address "ORDER_PLACED"
                  Confirmation.sample_site (Some "ORDER_PLACED")
                  Payment.sample_order)).
  reflexivity.
Defined.
